(** * Glass mechanical watch: gear generator, gear train and mesh animator

    A shallow embedding of [script.js] and the properties of its gear
    geometry, clock angles and per-frame rotation update.

    Numbers.  A JavaScript number is an IEEE-754 binary64 value.  The program
    text is embedded once, over the numeric interface [JsNum] (and [JsTrig]
    for [Math.PI], [Math.cos], [Math.sin]), so that the same definitions can be
    read in two ways:
    - at [float] (Rocq's primitive binary64 numbers, instance [float_num]) the
      definitions compute what the script computes, rounding included;
    - at [R] (instance [real_num]) they are the exact real-valued reading of
      the same formulas, used where a property speaks about real geometry or
      about the smoothing recurrence for all inputs.

    DOM.  Elements live in a store indexed by handles; an element created by
    [document.createElementNS] gets a fresh handle, and both the gear objects
    and the container refer to elements by handle, as the script's references
    do.  The attributes the script reads or writes are fields of [element].

    The pointer-drag handler at the end of the script only sets a style of
    the [svg] root; it reads and writes nothing of the gear train and has a
    state of its own ([TiltPage]). *)

From Stdlib Require Import Floats.
From Stdlib Require Import ZArith List String Ascii Reals Lra Lia Bool.
From Stdlib Require Import DecimalString DecimalN DecimalPos.
From stdpp Require Import base option list list_monad gmap.

Set Default Proof Using "Type".
Local Open Scope string_scope.

(** ** The numeric interface *)

Class JsNum (num : Type) := {
  (** the number denoted by an integer literal or an integral value *)
  ofZ : Z -> num;
  add : num -> num -> num;
  sub : num -> num -> num;
  mul : num -> num -> num;
  div : num -> num -> num;
  neg : num -> num;
  (** [ToBoolean x = false]: [x] is [+0], [-0] or [NaN] *)
  falsy : num -> bool;
  (** [parseFloat(String(x))] *)
  reparse : num -> num;
  Math_max : num -> num -> num;
  Math_round : num -> num;
  (** [x.toFixed(2)] *)
  toFixed2 : num -> string;
  (** [parseFloat(0)] is [0] *)
  reparse_zero : reparse (ofZ 0) = ofZ 0;
  (** a number that is not [0], [-0] or [NaN] reads back as itself, and the
      other three read back as [0] or [NaN] *)
  reparse_truthy : forall x, falsy x = false -> reparse x = x;
  reparse_falsy : forall x, falsy (reparse x) = falsy x
}.

Class JsTrig (num : Type) := {
  Math_PI : num;
  Math_cos : num -> num;
  Math_sin : num -> num
}.

Declare Scope js_scope.
Delimit Scope js_scope with js.
Infix "+" := add : js_scope.
Infix "-" := sub : js_scope.
Infix "*" := mul : js_scope.
Infix "/" := div : js_scope.
Notation "- x" := (neg x) : js_scope.

(** The decimal literal [m / 10^k], e.g. [0.45] is [decimal 45 2].  Both
    [m] and [10^k] are exact in binary64 for the literals of the script and
    IEEE division rounds correctly, so at [float] this is the double that
    the literal denotes (see [float_literals]). *)
Definition decimal {num : Type} `{!JsNum num} (m : Z) (k : nat) : num :=
  (ofZ m / ofZ (10 ^ Z.of_nat k))%js.

(** ** Rendering of [toFixed(2)]

    Below [10^21], [Number.prototype.toFixed] picks the integer [n] for which
    [n / 100 - |x|] is as close to zero as possible (the larger [n] on a
    tie), and prints a sign when [x < 0], the decimal digits of [n / 100], a
    point and the two digits of [n mod 100].  From [10^21] on it returns
    [String(x)], which for such a number is the exponent form: the digits
    [s] of the number, a point after the first one, and [e+] with the
    decimal exponent. *)

Definition digit_char (d : Z) : ascii :=
  ascii_of_nat (48 + Z.to_nat d).

Definition render_fixed2 (negative : bool) (n : Z) : string :=
  (if negative then "-" else "") ++
  NilZero.string_of_uint (N.to_uint (Z.to_N (n / 100))) ++ "." ++
  String (digit_char (n mod 100 / 10)) (String (digit_char (n mod 10)) "").

(** The number of decimal digits of a positive integer. *)
Definition decimal_digits (v : Z) : Z :=
  Z.of_nat (String.length (NilZero.string_of_uint (N.to_uint (Z.to_N v)))).

(** The exponent form of [s * 10 ^ (n - k)], where [k] is the number of
    digits of [s]: [d.ddde+x] with [x = n - 1] (here [n > 21]). *)
Definition render_exponent (negative : bool) (s n : Z) : string :=
  (if negative then "-" else "") ++
  match NilZero.string_of_uint (N.to_uint (Z.to_N s)) with
  | String c "" => String c ""
  | String c rest => String c ("." ++ rest)
  | "" => ""
  end ++ "e+" ++ NilZero.string_of_uint (N.to_uint (Z.to_N (n - 1))).

(** ** Binary64 instance *)

Module F64.

Definition prec : Z := 53.
Definition emax : Z := 1024.

(** nearest double to an integer *)
Definition of_Z (z : Z) : float :=
  SF2Prim (binary_normalize prec emax z 0 false).

Definition is_zero (x : float) : bool := PrimFloat.eqb x PrimFloat.zero.

Definition falsy (x : float) : bool := is_zero x || PrimFloat.is_nan x.

(** [String] prints both zeros as ["0"]; every other number, and
    ["NaN"], ["Infinity"], ["-Infinity"], read back as themselves. *)
Definition reparse (x : float) : float :=
  if is_zero x then PrimFloat.zero else x.

(** [floor (v * scale + 1/2)] for the exact value [v = m * 2^e >= 0] *)
Definition round_half_up (scale : Z) (m : positive) (e : Z) : Z :=
  if (0 <=? e)%Z then scale * Z.pos m * 2 ^ e
  else (2 * scale * Z.pos m + 2 ^ (- e)) / 2 ^ (- e + 1).

(** The digits of [String(x)] for a double [x] whose value is the integer
    [v] of [n] decimal digits: the pair [(s, n)] with the fewest digits [k]
    of [s] such that [s * 10 ^ (n - k)] still rounds to [x], and of these
    the one nearest to [v] (the even one on a tie).  [shortest_at] tries
    one [k]: only [v] cut to [k] digits and its successor can round to
    [x]. *)
Definition shortest_at (x : float) (v n k : Z) : option (Z * Z) :=
  let scale := (10 ^ (n - k))%Z in
  let lo := (v / scale)%Z in
  let hi := (lo + 1)%Z in
  let is_x s := PrimFloat.eqb (of_Z (s * scale)%Z) x in
  let lo_nearer :=
    let below := (v - lo * scale)%Z in
    let above := (hi * scale - v)%Z in
    (below <? above)%Z || ((below =? above)%Z && Z.even lo) in
  let pick s :=
    if (s =? 10 ^ k)%Z then ((10 ^ (k - 1))%Z, (n + 1)%Z) else (s, n) in
  match is_x lo, is_x hi with
  | true, true => Some (pick (if lo_nearer then lo else hi))
  | true, false => Some (pick lo)
  | false, true => Some (pick hi)
  | false, false => None
  end.

(** Seventeen digits always round back to the double. *)
Fixpoint shortest_from (fuel : nat) (x : float) (v n k : Z) : Z * Z :=
  match fuel with
  | O => ((v / 10 ^ (n - k))%Z, n)
  | S fuel' =>
      match shortest_at x v n k with
      | Some sn => sn
      | None => shortest_from fuel' x v n (k + 1)%Z
      end
  end.

(** [String(x)] for a double [x >= 10^21] with the integer value [v] *)
Definition to_exponent (x : float) (v : Z) : string :=
  let (s, n) := shortest_from 17 x v (decimal_digits v) 1 in
  render_exponent false s n.

(** [x.toFixed(2)]: [String(x)] for a number that is not finite; otherwise
    the sign of a negative [x] followed by [String(|x|)] when
    [|x| >= 10^21] and by the two-decimal rendering of [|x|] below. *)
Definition toFixed2 (x : float) : string :=
  match Prim2SF x with
  | S754_nan => "NaN"
  | S754_infinity s => if s then "-Infinity" else "Infinity"
  | S754_zero _ => render_fixed2 false 0
  | S754_finite s m e =>
      if (10 ^ 21 <=? Z.pos m * 2 ^ e)%Z
      then (if s then "-" else "") ++
           to_exponent (PrimFloat.abs x) (Z.pos m * 2 ^ e)%Z
      else render_fixed2 s (round_half_up 100 m e)
  end.

(** [Math.round x = floor (x + 1/2)], computed on the exact value *)
Definition round (x : float) : float :=
  match Prim2SF x with
  | S754_finite s m e =>
      if (0 <=? e)%Z then x
      else
        let sm := if s then Z.neg m else Z.pos m in
        let n := ((2 * sm + 2 ^ (- e)) / 2 ^ (- e + 1))%Z in
        if (n =? 0)%Z then (if s then PrimFloat.neg_zero else PrimFloat.zero)
        else of_Z n
  | _ => x
  end.

(** [Math.max]: [NaN] if either argument is, and [+0] above [-0] *)
Definition max (x y : float) : float :=
  if PrimFloat.is_nan x || PrimFloat.is_nan y then PrimFloat.nan
  else if PrimFloat.ltb x y then y
  else if PrimFloat.ltb y x then x
  else if is_zero x && negb (PrimFloat.get_sign x) then x else y.

(** The two laws of reading back, at binary64. *)
Definition reparse_truthy (x : float) : falsy x = false -> reparse x = x :=
  match is_zero x as b
    return (b || PrimFloat.is_nan x = false ->
            (if b then PrimFloat.zero else x) = x)
  with
  | true => fun H => False_ind _ (Bool.diff_true_false H)
  | false => fun _ => eq_refl
  end.

Definition reparse_falsy (x : float) : falsy (reparse x) = falsy x :=
  (if is_zero x as b
     return (is_zero x = b ->
             falsy (if b then PrimFloat.zero else x) = falsy x)
   then fun E => eq_sym (f_equal (fun b => b || PrimFloat.is_nan x) E)
   else fun _ => eq_refl) eq_refl.

End F64.

#[export] Instance float_num : JsNum float := {|
  ofZ := F64.of_Z;
  add := PrimFloat.add;
  sub := PrimFloat.sub;
  mul := PrimFloat.mul;
  div := PrimFloat.div;
  neg := PrimFloat.opp;
  falsy := F64.falsy;
  reparse := F64.reparse;
  Math_max := F64.max;
  Math_round := F64.round;
  toFixed2 := F64.toFixed2;
  reparse_zero := eq_refl;
  reparse_truthy := F64.reparse_truthy;
  reparse_falsy := F64.reparse_falsy
|}.

(** ** Exact instance *)

Module Exact.

Definition falsy (x : R) : bool :=
  if Req_dec_T x 0 then true else false.

Definition is_negative (x : R) : bool :=
  if Rlt_dec x 0 then true else false.

(** nearest integer to [100 * |x|], the larger on a tie *)
Definition hundredths (x : R) : Z := Zfloor (100 * Rabs x + / 2).

(** Trailing zeros are not digits of [s]. *)
Fixpoint strip_zeros (fuel : nat) (s : Z) : Z :=
  match fuel with
  | O => s
  | S fuel' =>
      if (s mod 10 =? 0)%Z && negb (s =? 0)%Z then strip_zeros fuel' (s / 10)
      else s
  end.

(** The exponent form of [x >= 10^21].  A real number has no shortest
    digits that read back as itself; the exact reading prints [x] rounded to
    seventeen significant digits, the most [String] prints of a double. *)
Definition to_exponent (x : R) : string :=
  let n := decimal_digits (Zfloor x) in
  let s := Zfloor (x / IZR (10 ^ (n - 17)) + / 2) in
  if (s =? 10 ^ 17)%Z then render_exponent false 1 (n + 1)%Z
  else render_exponent false (strip_zeros 17 s) n.

Definition toFixed2 (x : R) : string :=
  if Rle_dec 1000000000000000000000 (Rabs x)
  then (if is_negative x then "-" else "") ++ to_exponent (Rabs x)
  else render_fixed2 (is_negative x) (hundredths x).

Definition round (x : R) : R := IZR (Zfloor (x + / 2)).

End Exact.

#[export] Instance real_num : JsNum R := {|
  ofZ := IZR;
  add := Rplus;
  sub := Rminus;
  mul := Rmult;
  div := Rdiv;
  neg := Ropp;
  falsy := Exact.falsy;
  reparse := fun x => x;
  Math_max := Rmax;
  Math_round := Exact.round;
  toFixed2 := Exact.toFixed2;
  reparse_zero := eq_refl;
  reparse_truthy := fun x _ => eq_refl;
  reparse_falsy := fun x => eq_refl
|}.

#[export] Instance real_trig : JsTrig R := {|
  Math_PI := PI;
  Math_cos := cos;
  Math_sin := sin
|}.


(** ** The DOM *)

Abbreviation handle := nat (only parsing).

Section Program.

Context {num : Type} `{!JsNum num} `{!JsTrig num}.

(** The value of a [transform] attribute: the text [translate(x, y)],
    [rotate(a)] or [translate(x, y) rotate(a)], with the numbers the
    template literal prints. *)
Inductive transform :=
| Translate (x y : num)
| Rotate (a : num)
| TranslateRotate (x y a : num).

(** An attribute assignment, name and value.  [A_data_rot x] is
    [data-rot = String(x)]. *)
Inductive attribute :=
| A_id (s : string)
| A_class (s : string)
| A_d (s : string)
| A_cx (x : num)
| A_cy (x : num)
| A_r (x : num)
| A_fill (s : string)
| A_transform (t : transform)
| A_data_rot (x : num).

Record element := {
  tag : string;
  attr_id : option string;
  attr_class : option string;
  attr_d : option string;
  attr_cx : option num;
  attr_cy : option num;
  attr_r : option num;
  attr_fill : option string;
  attr_transform : option transform;
  attr_data_rot : option num;
  style_transformOrigin : option (num * num);
  textContent : string;
  children : list handle
}.

Definition blank (t : string) : element :=
  {| tag := t; attr_id := None; attr_class := None; attr_d := None;
     attr_cx := None; attr_cy := None; attr_r := None; attr_fill := None;
     attr_transform := None; attr_data_rot := None;
     style_transformOrigin := None; textContent := ""; children := [] |}.

Definition set_attr (a : attribute) (e : element) : element :=
  {| tag := tag e;
     attr_id := match a with A_id s => Some s | _ => attr_id e end;
     attr_class := match a with A_class s => Some s | _ => attr_class e end;
     attr_d := match a with A_d s => Some s | _ => attr_d e end;
     attr_cx := match a with A_cx x => Some x | _ => attr_cx e end;
     attr_cy := match a with A_cy x => Some x | _ => attr_cy e end;
     attr_r := match a with A_r x => Some x | _ => attr_r e end;
     attr_fill := match a with A_fill s => Some s | _ => attr_fill e end;
     attr_transform :=
       match a with A_transform t => Some t | _ => attr_transform e end;
     attr_data_rot :=
       match a with A_data_rot x => Some x | _ => attr_data_rot e end;
     style_transformOrigin := style_transformOrigin e;
     textContent := textContent e;
     children := children e |}.

Definition set_transformOrigin (o : num * num) (e : element) : element :=
  {| tag := tag e; attr_id := attr_id e; attr_class := attr_class e;
     attr_d := attr_d e; attr_cx := attr_cx e; attr_cy := attr_cy e;
     attr_r := attr_r e; attr_fill := attr_fill e;
     attr_transform := attr_transform e; attr_data_rot := attr_data_rot e;
     style_transformOrigin := Some o;
     textContent := textContent e; children := children e |}.

Definition set_textContent (s : string) (e : element) : element :=
  {| tag := tag e; attr_id := attr_id e; attr_class := attr_class e;
     attr_d := attr_d e; attr_cx := attr_cx e; attr_cy := attr_cy e;
     attr_r := attr_r e; attr_fill := attr_fill e;
     attr_transform := attr_transform e; attr_data_rot := attr_data_rot e;
     style_transformOrigin := style_transformOrigin e;
     textContent := s; children := children e |}.

Definition set_children (l : list handle) (e : element) : element :=
  {| tag := tag e; attr_id := attr_id e; attr_class := attr_class e;
     attr_d := attr_d e; attr_cx := attr_cx e; attr_cy := attr_cy e;
     attr_r := attr_r e; attr_fill := attr_fill e;
     attr_transform := attr_transform e; attr_data_rot := attr_data_rot e;
     style_transformOrigin := style_transformOrigin e;
     textContent := textContent e; children := l |}.

Record DOM := {
  next_handle : handle;
  elems : gmap handle element
}.

(** Mutation of the element a reference points to. *)
Definition update (h : handle) (f : element -> element) (d : DOM) : DOM :=
  {| next_handle := next_handle d; elems := alter f h (elems d) |}.

(** DOM operations thread the store. *)
Definition dom_op (A : Type) : Type := DOM -> A * DOM.

#[local] Instance dom_ret : MRet dom_op := fun A a d => (a, d).
#[local] Instance dom_bind : MBind dom_op :=
  fun A B f m d => let (a, d') := m d in f a d'.

Definition modify (h : handle) (f : element -> element) : dom_op unit :=
  fun d => (tt, update h f d).

Definition createElementNS (t : string) : dom_op handle :=
  fun d => (next_handle d,
            {| next_handle := S (next_handle d);
               elems := <[next_handle d := blank t]> (elems d) |}).

Definition setAttribute (h : handle) (a : attribute) : dom_op unit :=
  modify h (set_attr a).

Definition appendChild (parent child : handle) : dom_op unit :=
  modify parent (fun e => set_children (children e ++ [child]) e).

Definition getAttribute_data_rot (h : handle) (d : DOM) : option num :=
  elems d !! h ≫= attr_data_rot.

(** The elements of the page the script looks up when it loads. *)
Definition gearContainer : handle := 0.
Definition minuteGroup : handle := 1.
Definition hourGroup : handle := 2.
Definition toggleBtn : handle := 3.

(** [$svg(tag, attrs)] *)
Definition svg (t : string) (attrs : list attribute) : dom_op handle :=
  el ← createElementNS t;
  mapM (setAttribute el) attrs;;
  mret el.

(** ** Procedural gear path *)

Record GearPath := {
  group : handle;
  path : handle;
  teeth : nat;
  r : num;
  outer : num;
  center : handle
}.

Definition gear_theta (steps i : nat) : num :=
  (ofZ (Z.of_nat i) / ofZ (Z.of_nat steps) * Math_PI * ofZ 2)%js.

Definition gear_radius (inner outer toothDepth : num) (i : nat) : num :=
  let mod_ := i mod 4 in
  if Nat.eqb mod_ 0 then (inner + toothDepth * decimal 45 2)%js
  else if Nat.eqb mod_ 1 then outer
  else if Nat.eqb mod_ 2 then (inner + toothDepth * decimal 45 2)%js
  else (inner * decimal 68 2)%js.

(** The pair [(x, y)] of one pass of the loop. *)
Definition gear_vertex (teeth : nat) (r toothDepth : num) (i : nat)
  : num * num :=
  let outer := (r + toothDepth)%js in
  let inner := r in
  let steps := teeth * 4 in
  let theta := gear_theta steps i in
  let radius := gear_radius inner outer toothDepth i in
  ((radius * Math_cos theta)%js, (radius * Math_sin theta)%js).

Definition gear_vertices (teeth : nat) (r toothDepth : num)
  : list (num * num) :=
  map (gear_vertex teeth r toothDepth) (seq 0 (teeth * 4)).

(** The array [d] after the loop. *)
Definition gear_d (teeth : nat) (r toothDepth : num) : list string :=
  map (fun v => toFixed2 (fst v) ++ "," ++ toFixed2 (snd v))
      (gear_vertices teeth r toothDepth).

Definition gear_pathD (d : list string) : string :=
  "M " ++ nth 0 d "undefined" ++ " L " ++ String.concat " L " (tl d) ++ " Z".

Definition makeGearPath (teeth : nat) (r toothDepth centerRadius : num)
  : dom_op GearPath :=
  let outer := (r + toothDepth)%js in
  let d := gear_d teeth r toothDepth in
  let pathD := gear_pathD d in
  path ← svg "path" [A_d pathD; A_class "gear-path"];
  center ← svg "circle" [A_cx (ofZ 0); A_cy (ofZ 0); A_r centerRadius;
                         A_fill "rgba(255,255,255,0.02)"];
  group ← svg "g" [];
  appendChild group path;;
  appendChild group center;;
  mret {| group := group; path := path; teeth := teeth; r := r;
          outer := outer; center := center |}.

(** ** The gear train *)

Record Gear := {
  shape : GearPath;
  cx : num;
  cy : num
}.

Record Train := {
  gears : list Gear;
  pinion : Gear
}.

Record config_row := {
  c_id : string;
  c_teeth : nat;
  c_r : num;
  c_toothDepth : num;
  c_cx : num;
  c_cy : num
}.

Definition config : list config_row :=
  [ {| c_id := "g1"; c_teeth := 44; c_r := ofZ 64; c_toothDepth := ofZ 9;
       c_cx := ofZ (-28); c_cy := ofZ 30 |};
    {| c_id := "g2"; c_teeth := 22; c_r := ofZ 34; c_toothDepth := ofZ 7;
       c_cx := ofZ 64; c_cy := ofZ 20 |};
    {| c_id := "g3"; c_teeth := 14; c_r := ofZ 24; c_toothDepth := ofZ 6;
       c_cx := ofZ 38; c_cy := ofZ (-82) |} ].

(** The function mapped over [config]. *)
Definition place_gear (c : config_row) : dom_op Gear :=
  g ← makeGearPath (c_teeth c) (c_r c) (c_toothDepth c)
        (Math_max (ofZ 8) (Math_round (c_r c * decimal 28 2)%js));
  setAttribute (group g) (A_id (c_id c));;
  setAttribute (group g) (A_transform (Translate (c_cx c) (c_cy c)));;
  modify (group g) (set_transformOrigin (c_cx c, c_cy c));;
  appendChild gearContainer (group g);;
  mret {| shape := g; cx := c_cx c; cy := c_cy c |}.

(** [buildGears] with its configuration table as an argument. *)
Definition buildGearsFrom (cfg : list config_row) : dom_op Train :=
  modify gearContainer (set_children []);;
  gearObjs ← mapM place_gear cfg;
  p ← makeGearPath 10 (ofZ 8) (ofZ 4) (ofZ 5);
  setAttribute (group p) (A_id "pinion");;
  setAttribute (group p) (A_transform (Translate (ofZ 0) (ofZ 0)));;
  appendChild gearContainer (group p);;
  mret {| gears := gearObjs;
          pinion := {| shape := p; cx := ofZ 0; cy := ofZ 0 |} |}.

Definition buildGears : dom_op Train := buildGearsFrom config.

(** ** Clock angles *)

Record Date := {
  getHours : Z;
  getMinutes : Z;
  getSeconds : Z;
  getMilliseconds : Z
}.

Record ClockAngles := {
  secondAngle : num;
  minuteAngle : num;
  hourAngle : num
}.

Definition getClockAngles (date : Date) : ClockAngles :=
  let s := ofZ (getSeconds date) in
  let m := ofZ (getMinutes date) in
  let h := ofZ (Z.rem (getHours date) 12) in
  let ms := ofZ (getMilliseconds date) in
  {| secondAngle := ((s + ms / ofZ 1000) * ofZ 6)%js;
     minuteAngle := ((m + s / ofZ 60 + ms / ofZ 60000) * ofZ 6)%js;
     hourAngle := ((h + m / ofZ 60 + s / ofZ 3600) * ofZ 30)%js |}.

(** ** Animation state *)

Record AnimState := {
  gearsObj : option Train;
  lastT : option num;
  easing : num
}.

Record World := {
  dom : DOM;
  running : bool;
  state : AnimState
}.

(** What a call leaves behind: the frame callback registered again, or
    an exception that ends the animation. *)
Inductive outcome :=
| Scheduled (w : World)
| TypeError (w : World).

(** The click handler of the toggle button. *)
Definition click (w : World) : World :=
  let running' := negb (running w) in
  {| dom := update toggleBtn
              (set_textContent (if running' then "Pause" else "Play"))
              (dom w);
     running := running';
     state := state w |}.

(** [start()]; [now] is the reading of [performance.now()]. *)
Definition start (now : num) (w : World) : World :=
  let built := buildGears (dom w) in
  {| dom := snd built; running := running w;
     state := {| gearsObj := Some (fst built); lastT := Some now;
                 easing := easing (state w) |} |}.

(** ** Main loop *)

(** [pinion.teeth || 10] *)
Definition pinion_teeth (p : Gear) : nat :=
  match teeth (shape p) with 0 => 10 | S n => S n end.

(** [parseFloat(getAttribute("data-rot") || 0) || 0]: the attribute
    text, or the number [0] when the attribute is absent (a printed number
    is never the empty string), is parsed, and a parse that is [NaN] or
    zero is replaced by [0]. *)
Definition current_rotation (stored : option num) : num :=
  let currentTransform := match stored with Some x => x | None => ofZ 0 end in
  let parsed := reparse currentTransform in
  if falsy parsed then ofZ 0 else parsed.

(** The value [next] of one gear. *)
Definition next_rotation (pinionTurn : num) (pinionTeeth gearTeeth : nat)
    (stored : option num) : num :=
  let target :=
    (- pinionTurn * (ofZ (Z.of_nat pinionTeeth) / ofZ (Z.of_nat gearTeeth)))%js in
  let cur := current_rotation stored in
  (cur + (target - cur) * decimal 14 2)%js.

(** The body of [forEach]. *)
Definition loop_gear (pinionTurn : num) (pinionTeeth : nat) (g : Gear)
  : dom_op unit :=
  fun d =>
    let next := next_rotation pinionTurn pinionTeeth (teeth (shape g))
                  (getAttribute_data_rot (group (shape g)) d) in
    (setAttribute (group (shape g))
       (A_transform (TranslateRotate (cx g) (cy g) next));;
     setAttribute (group (shape g)) (A_data_rot next)) d.

Definition loop (now : Date) (w : World) : outcome :=
  let angles := getClockAngles now in
  let d1 :=
    snd ((setAttribute minuteGroup (A_transform (Rotate (minuteAngle angles)));;
          setAttribute hourGroup (A_transform (Rotate (hourAngle angles))))
           (dom w)) in
  if running w then
    match gearsObj (state w) with
    | None => TypeError {| dom := d1; running := running w; state := state w |}
    | Some tr =>
        let driverDeg := minuteAngle angles in
        let p := pinion tr in
        let pinionTeeth := pinion_teeth p in
        let pinionTurn := driverDeg in
        let d2 :=
          snd ((setAttribute (group (shape p))
                  (A_transform (TranslateRotate (cx p) (cy p) pinionTurn));;
                mapM (loop_gear pinionTurn pinionTeeth) (gears tr))
                 d1) in
        Scheduled {| dom := d2; running := running w; state := state w |}
    end
  else Scheduled {| dom := d1; running := running w; state := state w |}.

(** The page before the script runs: the four elements it looks up. *)
Definition initial_dom : DOM :=
  {| next_handle := 4;
     elems := <[gearContainer := blank "g"]>
              (<[minuteGroup := blank "g"]>
              (<[hourGroup := blank "g"]>
              (<[toggleBtn := blank "button"]> ∅))) |}.

Definition initial : World :=
  {| dom := initial_dom; running := true;
     state := {| gearsObj := None; lastT := None; easing := decimal 8 2 |} |}.

End Program.

#[export] Existing Instances dom_ret dom_bind.

Arguments transform : clear implicits.
Arguments attribute : clear implicits.
Arguments element : clear implicits.
Arguments DOM : clear implicits.
Arguments dom_op : clear implicits.
Arguments GearPath : clear implicits.
Arguments Gear : clear implicits.
Arguments Train : clear implicits.
Arguments config_row : clear implicits.
Arguments ClockAngles : clear implicits.
Arguments AnimState : clear implicits.
Arguments World : clear implicits.
Arguments outcome : clear implicits.

(** ** Runs of the page *)

Section Runs.

Context {num : Type} `{!JsNum num} `{!JsTrig num}.

(** The field ranges of a JavaScript [Date]. *)
Definition valid_date (d : Date) : Prop :=
  (0 <= getHours d < 24)%Z /\ (0 <= getMinutes d < 60)%Z /\
  (0 <= getSeconds d < 60)%Z /\ (0 <= getMilliseconds d < 1000)%Z.

(** Consecutive animation frames, one per reading of the clock; an exception
    ends the animation. *)
Definition frames (nows : list Date) (w : World num) : outcome num :=
  fold_left
    (fun o now =>
       match o with Scheduled w' => loop now w' | TypeError w' => TypeError w' end)
    nows (Scheduled w).

(** The states of the page: the script runs [start] when it loads, then
    frames and clicks follow; [start] may be run again to rebuild the train. *)
Inductive reachable : World num -> Prop :=
| reach_start (t : num) : reachable (start t initial)
| reach_frame (now : Date) (w w' : World num) :
    reachable w -> valid_date now -> loop now w = Scheduled w' -> reachable w'
| reach_click (w : World num) : reachable w -> reachable (click w)
| reach_rebuild (t : num) (w : World num) : reachable w -> reachable (start t w).

(** The gear object [makeGearPath] returns when the next free handle is [n]:
    path, circle and group are created in this order. *)
Definition shape_at (n : handle) (t : nat) (r td : num) : GearPath num :=
  {| group := S (S n); path := n; teeth := t; r := r;
     outer := (r + td)%js; center := S n |}.

(** The train [buildGears] returns when the next free handle is [n]
    (lemma [buildGears_train]). *)
Definition train_at (n : handle) : Train num :=
  {| gears :=
       [ {| shape := shape_at n 44 (ofZ 64) (ofZ 9);
            cx := ofZ (-28); cy := ofZ 30 |};
         {| shape := shape_at (3 + n) 22 (ofZ 34) (ofZ 7);
            cx := ofZ 64; cy := ofZ 20 |};
         {| shape := shape_at (6 + n) 14 (ofZ 24) (ofZ 6);
            cx := ofZ 38; cy := ofZ (-82) |} ];
     pinion := {| shape := shape_at (9 + n) 10 (ofZ 8) (ofZ 4);
                  cx := ofZ 0; cy := ofZ 0 |} |}.

(** The group element of a gear right after [buildGears]. *)
Definition built_group (n : handle) (id : string) (t : option (num * num))
    (x y : num) : element num :=
  {| tag := "g"; attr_id := Some id; attr_class := None; attr_d := None;
     attr_cx := None; attr_cy := None; attr_r := None; attr_fill := None;
     attr_transform := Some (Translate x y); attr_data_rot := None;
     style_transformOrigin := t; textContent := "";
     children := [n; S n] |}.

(** The page keeps its four elements, and handles below [next_handle] are
    the allocated ones. *)
Definition page_ok (d : DOM num) : Prop :=
  4 <= next_handle d /\ forall h, h < 4 -> is_Some (elems d !! h).

(** The animation state holds a train built at some store position, and
    its group elements are in the store. *)
Definition train_ok (w : World num) (n : handle) : Prop :=
  gearsObj (state w) = Some (train_at n) /\ 4 <= n /\
  12 + n <= next_handle (dom w) /\
  (forall k, In k [2; 5; 8; 11] -> is_Some (elems (dom w) !! (k + n))).

Definition world_ok (w : World num) : Prop :=
  page_ok (dom w) /\ exists n, train_ok w n.

(** The stored rotation of a gear after [n] more frames that all read the
    same pinion rotation. *)
Definition rotation_after (pinionTurn : num) (pinionTeeth gearTeeth : nat)
    (n : nat) (stored : option num) : option num :=
  Nat.iter n
    (fun s => Some (next_rotation pinionTurn pinionTeeth gearTeeth s)) stored.

(** The [data-rot] attribute of a gear in the state a run ends in. *)
Definition stored_rotation (g : Gear num) (o : outcome num) : option num :=
  match o with
  | Scheduled w | TypeError w => getAttribute_data_rot (group (shape g)) (dom w)
  end.

(** The [transform] attribute of an element. *)
Definition transform_of (h : handle) (d : DOM num) : option (transform num) :=
  elems d !! h ≫= attr_transform.

(** The placement and tooth count of a gear of the train. *)
Definition placement (g : Gear num) : num * num * nat :=
  (cx g, cy g, teeth (shape g)).

End Runs.

(** ** Vocabulary of the exact reading *)

Section ExactVocabulary.

Local Open Scope R_scope.

(** Distance of a vertex from the gear's center. *)
Definition vertex_radius (v : R * R) : R := sqrt (fst v * fst v + snd v * snd v).

(** The radius the loop picks at step [i], by the residue of [i]. *)
Definition step_radius (r td : R) (i : nat) : R :=
  match (i mod 4)%nat with
  | 0%nat => r + 0.45 * td
  | 1%nat => r + td
  | 2%nat => r + 0.45 * td
  | _ => r * 0.68
  end.

Definition is_digit (c : ascii) : bool :=
  (48 <=? nat_of_ascii c)%nat && (nat_of_ascii c <=? 57)%nat.

Definition digit_value (c : ascii) : Z := Z.of_nat (nat_of_ascii c) - 48.

(** The number a text [sign ++ int ++ "." ++ d1 d2] denotes. *)
Definition text_value (negative : bool) (int_part : string) (d1 d2 : ascii)
  : option R :=
  match NilZero.uint_of_string int_part with
  | Some u =>
      Some ((if negative then -1 else 1) *
            (IZR (Z.of_N (N.of_uint u)) + IZR (digit_value d1) / 10 +
             IZR (digit_value d2) / 100))
  | None => None
  end.

(** The number [x.toFixed(2)] denotes, in exact arithmetic. *)
Definition printed (x : R) : R :=
  (if Exact.is_negative x then -1 else 1) * (IZR (Exact.hundredths x) / 100).

(** [s] is a numeral with exactly two decimals, and it denotes [q]. *)
Definition two_decimals (s : string) (q : R) : Prop :=
  exists (negative : bool) (int_part : string) (d1 d2 : ascii),
    s = ((if negative then "-" else "") ++ int_part ++ "." ++
         String d1 (String d2 ""))%string /\
    is_digit d1 = true /\ is_digit d2 = true /\
    text_value negative int_part d1 d2 = Some q.

(** The rotation a gear is driven towards. *)
Definition mesh_target (pinionRotation : R) (gearTeeth : nat) : R :=
  - pinionRotation * (10 / IZR (Z.of_nat gearTeeth)).

(** The stored rotation of every gear stays within [-258, 0]. *)
Definition rotations_bounded (w : World R) : Prop :=
  exists n,
    train_ok w n /\
    forall k, In k [2; 5; 8]%nat ->
      -258 <= current_rotation (getAttribute_data_rot (k + n) (dom w)) <= 0.

(** The page once the script has loaded, and the same page paused. *)
Definition built : World R := start 0 initial.

Definition paused : World R := click built.

(** The gear [g1] of the train of [built]. *)
Definition gear_one : Gear R :=
  {| shape := shape_at 4 44 (ofZ 64) (ofZ 9); cx := ofZ (-28); cy := ofZ 30 |}.

End ExactVocabulary.

(** The reading of the clock at 10:15:30.000. *)
Definition quarter_past : Date :=
  {| getHours := 10; getMinutes := 15; getSeconds := 30;
     getMilliseconds := 0 |}.

(** The readings of the clock at 10:59:59.999 and at 11:00:00.000. *)
Definition hour_end : Date :=
  {| getHours := 10; getMinutes := 59; getSeconds := 59;
     getMilliseconds := 999 |}.

Definition eleven_sharp : Date :=
  {| getHours := 11; getMinutes := 0; getSeconds := 0;
     getMilliseconds := 0 |}.

(** ** Pointer tilt

    The handler installed by [addDrag]: a vertical drag on the control
    [#case] accumulates [rot] and tilts the [svg] root.  The page has the
    control and the root or it has not ([document.querySelector] and
    [document.getElementById] return [null]); [setPointerCapture] only
    redirects later pointer events and keeps no state of the script. *)

Class JsMin (num : Type) := {
  Math_min : num -> num -> num
}.

(** [Math.min] at binary64: [NaN] if either argument is, and [-0] below
    [+0]. *)
Definition float_min (x y : float) : float :=
  if PrimFloat.is_nan x || PrimFloat.is_nan y then PrimFloat.nan
  else if PrimFloat.ltb x y then x
  else if PrimFloat.ltb y x then y
  else if F64.is_zero x && PrimFloat.get_sign x then x else y.

#[export] Instance float_has_min : JsMin float := {| Math_min := float_min |}.

#[export] Instance real_has_min : JsMin R := {| Math_min := Rmin |}.

Section Tilt.

Context {num : Type} `{!JsNum num} `{!JsMin num}.

(** The variables [dragging], [startY] and [rot] of the closure. *)
Record DragState := {
  dragging : bool;
  startY : num;
  rot : num
}.

(** [case_found]: the control exists, so the three listeners are installed.
    [svg_found]: the root [#watch-svg] exists.  [svg_transform]: the
    [rotateX(a deg) rotateY(b deg)] last written to the root's style. *)
Record TiltPage := {
  case_found : bool;
  svg_found : bool;
  drag : DragState;
  svg_transform : option (num * num)
}.

(** [addDrag()] as the script calls it, before any event. *)
Definition addDrag (case_found svg_found : bool) : TiltPage :=
  {| case_found := case_found; svg_found := svg_found;
     drag := {| dragging := false; startY := ofZ 0; rot := ofZ 0 |};
     svg_transform := None |}.

Definition set_drag (d : DragState) (p : TiltPage) : TiltPage :=
  {| case_found := case_found p; svg_found := svg_found p; drag := d;
     svg_transform := svg_transform p |}.

(** The [pointerdown] listener of the control. *)
Definition pointerdown (clientY : num) (p : TiltPage) : TiltPage :=
  if case_found p then
    set_drag {| dragging := true; startY := clientY; rot := rot (drag p) |} p
  else p.

(** The [pointerup] listener of the window. *)
Definition pointerup (p : TiltPage) : TiltPage :=
  if case_found p then
    set_drag {| dragging := false; startY := startY (drag p);
                rot := rot (drag p) |} p
  else p.

(** [Math.max(-12, Math.min(12, v))] *)
Definition clamp12 (v : num) : num :=
  Math_max (- ofZ 12)%js (Math_min (ofZ 12) v).

(** The [pointermove] listener of the window; the flag tells whether it
    threw ([svg] is [null] when the root is missing, after [startY] and
    [rot] have been updated). *)
Definition pointermove (clientY : num) (p : TiltPage) : TiltPage * bool :=
  if negb (case_found p) then (p, false)
  else if negb (dragging (drag p)) then (p, false)
  else
    let dy := (clientY - startY (drag p))%js in
    let rot' := (rot (drag p) + dy * decimal 15 2)%js in
    let d := {| dragging := dragging (drag p); startY := clientY; rot := rot' |} in
    if svg_found p then
      ({| case_found := case_found p; svg_found := svg_found p; drag := d;
          svg_transform :=
            Some (clamp12 (rot' / ofZ 6)%js, clamp12 (rot' / ofZ 4)%js) |},
       false)
    else (set_drag d p, true).

Inductive pointer_event :=
| PointerDown (clientY : num)
| PointerUp
| PointerMove (clientY : num).

(** One event dispatched to the listeners; an exception in a listener ends
    that listener only. *)
Definition pointer_step (p : TiltPage) (e : pointer_event) : TiltPage :=
  match e with
  | PointerDown y => pointerdown y p
  | PointerUp => pointerup p
  | PointerMove y => fst (pointermove y p)
  end.

Definition pointer_run (es : list pointer_event) (p : TiltPage) : TiltPage :=
  fold_left pointer_step es p.

(** The tilt on the root is the clamped image of [rot], once one is written. *)
Definition tilt_of_rot (p : TiltPage) : Prop :=
  svg_transform p = None \/
  svg_transform p =
    Some (clamp12 (rot (drag p) / ofZ 6)%js, clamp12 (rot (drag p) / ofZ 4)%js).

End Tilt.

Arguments DragState : clear implicits.
Arguments TiltPage : clear implicits.
Arguments pointer_event : clear implicits.

(** ** Further vocabulary *)

Section MoreVocabulary.

Context {num : Type} `{!JsNum num} `{!JsTrig num}.

(** The handles of the elements in a store. *)
Definition keys (m : gmap handle (element num)) : gset handle :=
  stdpp.base.dom m.

(** The state a call of [loop] leaves. *)
Definition world_of (o : outcome num) : World num :=
  match o with Scheduled w | TypeError w => w end.

(** What the [transform] of a gear's group shows, given its [data-rot]. *)
Definition shown_transform (g : Gear num) (stored : option num)
  : transform num :=
  match stored with
  | Some x => TranslateRotate (cx g) (cy g) x
  | None => Translate (cx g) (cy g)
  end.

(** The group of every gear shows the rotation stored in its [data-rot], and
    the pinion stores none. *)
Definition shows_stored (d : DOM num) (tr : Train num) : Prop :=
  Forall (fun g =>
            transform_of (group (shape g)) d =
            Some (shown_transform g (getAttribute_data_rot (group (shape g)) d)))
         (gears tr) /\
  getAttribute_data_rot (group (shape (pinion tr))) d = None.

(** The text of the toggle button for a value of [running]. *)
Definition toggle_label (running : bool) : string :=
  if running then "Pause" else "Play".

End MoreVocabulary.

Section MoreExactVocabulary.

Local Open Scope R_scope.

(** A point turned about the origin by [delta] radians. *)
Definition turned (delta : R) (v : R * R) : R * R :=
  (fst v * cos delta - snd v * sin delta, fst v * sin delta + snd v * cos delta).

(** Milliseconds since the hour began. *)
Definition msec_in_hour (d : Date) : Z :=
  (60000 * getMinutes d + 1000 * getSeconds d + getMilliseconds d)%Z.

(** The farthest back a gear with [T] teeth is driven: the target at a full
    turn of the pinion. *)
Definition full_turn_target (T : nat) : R := 3600 / IZR (Z.of_nat T).




(** The table row of the gear [g3], the smallest of the three. *)
Definition row_g3 : config_row R :=
  {| c_id := "g3"; c_teeth := 14; c_r := ofZ 24; c_toothDepth := ofZ 6;
     c_cx := ofZ 38; c_cy := ofZ (-82) |}.

(** A drag on a page that has both the control and the root: the pointer
    goes down at 0 and moves to 10 and then to 30. *)
Definition short_drag : list (pointer_event R) :=
  [PointerDown 0; PointerMove 10; PointerMove 30].

End MoreExactVocabulary.



(** ** Proof automation for the store *)

Ltac run_dom :=
  cbv beta iota zeta delta
    [buildGears buildGearsFrom config place_gear makeGearPath svg
     createElementNS setAttribute appendChild modify update mapM mbind
     dom_bind mret dom_ret fst snd next_handle elems group path center
     c_id c_teeth c_r c_toothDepth c_cx c_cy
     loop loop_gear frames dom running state gearsObj gears pinion shape
     train_at shape_at pinion_teeth teeth cx cy Nat.add
     getAttribute_data_rot transform_of].

Ltac store_lookup :=
  repeat first
    [ rewrite lookup_alter_eq
    | rewrite lookup_insert_eq
    | rewrite lookup_alter_ne by (unfold gearContainer, minuteGroup, hourGroup, toggleBtn in *; lia)
    | rewrite lookup_insert_ne by (unfold gearContainer, minuteGroup, hourGroup, toggleBtn in *; lia) ].

(** ** The store after a build and after a frame *)

Section Store.

Context {num : Type} `{!JsNum num} `{!JsTrig num}.

Lemma buildGears_train (d : DOM num) :
  fst (buildGears d) = train_at (next_handle d).
Proof. destruct d as [n m]. run_dom. reflexivity. Qed.

Lemma buildGears_next (d : DOM num) :
  next_handle (snd (buildGears d)) = 12 + next_handle d.
Proof. destruct d as [n m]. run_dom. reflexivity. Qed.

Lemma buildGears_frame (d : DOM num) (h : handle) :
  h < next_handle d -> h <> gearContainer ->
  elems (snd (buildGears d)) !! h = elems d !! h.
Proof.
  destruct d as [n m]. run_dom. intros Hlt Hne.
  store_lookup. reflexivity.
Qed.

Lemma buildGears_container (d : DOM num) :
  0 < next_handle d ->
  elems (snd (buildGears d)) !! gearContainer =
  set_children
    [2 + next_handle d; 5 + next_handle d; 8 + next_handle d;
     11 + next_handle d] <$> elems d !! gearContainer.
Proof.
  destruct d as [n m]. run_dom. intros Hlt.
  store_lookup. destruct (m !! gearContainer); reflexivity.
Qed.

Lemma buildGears_groups (d : DOM num) :
  let n := next_handle d in
  let m := elems (snd (buildGears d)) in
  m !! (2 + n) =
    Some (built_group n "g1" (Some (ofZ (-28), ofZ 30)) (ofZ (-28)) (ofZ 30)) /\
  m !! (5 + n) =
    Some (built_group (3 + n) "g2" (Some (ofZ 64, ofZ 20)) (ofZ 64) (ofZ 20)) /\
  m !! (8 + n) =
    Some (built_group (6 + n) "g3" (Some (ofZ 38, ofZ (-82))) (ofZ 38)
            (ofZ (-82))) /\
  m !! (11 + n) =
    Some (built_group (9 + n) "pinion" None (ofZ 0) (ofZ 0)).
Proof.
  destruct d as [n m]. run_dom.
  repeat split; store_lookup; reflexivity.
Qed.

(** The element [makeGearPath] creates for the outline carries the path
    text of the array [d]. *)
Lemma makeGearPath_path (t : nat) (r td cr : num) (d : DOM num) :
  let made := makeGearPath t r td cr d in
  elems (snd made) !! path (fst made) ≫= attr_d =
    Some (gear_pathD (gear_d t r td)) /\
  teeth (fst made) = t /\ outer (fst made) = (r + td)%js.
Proof.
  destruct d as [n m]. run_dom. repeat split.
  store_lookup. reflexivity.
Qed.

Lemma place_gear_teeth (c : config_row num) (d : DOM num) :
  teeth (shape (fst (place_gear c d))) = c_teeth c.
Proof. destruct d as [n m]. run_dom. reflexivity. Qed.

Lemma buildGearsFrom_gears (cfg : list (config_row num)) (d : DOM num) :
  gears (fst (buildGearsFrom cfg d)) =
  fst (mapM place_gear cfg (update gearContainer (set_children []) d)).
Proof.
  cbv beta iota zeta delta [buildGearsFrom mbind dom_bind modify].
  destruct (mapM place_gear cfg _) as [l [n m]].
  run_dom. reflexivity.
Qed.

(** A frame while paused touches the two hands only. *)
Lemma loop_paused (now : Date) (w : World num) :
  running w = false ->
  exists w',
    loop now w = Scheduled w' /\ running w' = false /\ state w' = state w /\
    next_handle (dom w') = next_handle (dom w) /\
    (forall h, is_Some (elems (dom w') !! h) <-> is_Some (elems (dom w) !! h)) /\
    (forall h, h <> minuteGroup -> h <> hourGroup ->
               elems (dom w') !! h = elems (dom w) !! h) /\
    elems (dom w') !! minuteGroup =
      set_attr (A_transform (Rotate (minuteAngle (getClockAngles now))))
      <$> elems (dom w) !! minuteGroup /\
    elems (dom w') !! hourGroup =
      set_attr (A_transform (Rotate (hourAngle (getClockAngles now))))
      <$> elems (dom w) !! hourGroup.
Proof.
  destruct w as [[n m] run st]. cbn [running]. intros ->.
  eexists. split; [reflexivity|]. run_dom.
  repeat apply conj; try (intros; store_lookup; reflexivity).
  intros h. rewrite !lookup_alter_is_Some. reflexivity.
Qed.

(** A frame while running: the hands, the pinion and the three gears. *)
Lemma loop_running (now : Date) (w : World num) (n : handle) :
  running w = true -> gearsObj (state w) = Some (train_at n) -> 4 <= n ->
  let turn := minuteAngle (getClockAngles now) in
  let upd (g : Gear num) :=
    let next := next_rotation turn 10 (teeth (shape g))
                  (getAttribute_data_rot (group (shape g)) (dom w)) in
    fun e => set_attr (A_data_rot next)
               (set_attr (A_transform (TranslateRotate (cx g) (cy g) next)) e) in
  exists w',
    loop now w = Scheduled w' /\ running w' = true /\ state w' = state w /\
    next_handle (dom w') = next_handle (dom w) /\
    (forall h, is_Some (elems (dom w') !! h) <-> is_Some (elems (dom w) !! h)) /\
    (forall h, h <> minuteGroup -> h <> hourGroup ->
               ~ In h [2 + n; 5 + n; 8 + n; 11 + n] ->
               elems (dom w') !! h = elems (dom w) !! h) /\
    elems (dom w') !! minuteGroup =
      set_attr (A_transform (Rotate turn)) <$> elems (dom w) !! minuteGroup /\
    elems (dom w') !! hourGroup =
      set_attr (A_transform (Rotate (hourAngle (getClockAngles now))))
      <$> elems (dom w) !! hourGroup /\
    elems (dom w') !! (11 + n) =
      set_attr (A_transform (TranslateRotate (ofZ 0) (ofZ 0) turn))
      <$> elems (dom w) !! (11 + n) /\
    Forall (fun g => elems (dom w') !! group (shape g) =
                     upd g <$> elems (dom w) !! group (shape g))
           (gears (train_at n)).
Proof.
  destruct w as [[k m] run [go lt ea]]. cbn [running state gearsObj].
  intros -> -> Hn. cbv zeta.
  eexists. split; [reflexivity|]. run_dom.
  repeat apply conj; try (intros; store_lookup; reflexivity).
  - intros h. rewrite !lookup_alter_is_Some. reflexivity.
  - intros h H1 H2 H3. cbn [In] in H3.
    assert (h <> S (S n) /\ h <> 5 + n /\ h <> 8 + n /\ h <> 11 + n) as (?&?&?&?)
      by (repeat split; intros ->; apply H3; cbn; tauto).
    cbn [Nat.add] in *. store_lookup. reflexivity.
  - repeat constructor; cbn [group shape shape_at teeth cx cy];
      store_lookup; rewrite <- ?option_fmap_compose; reflexivity.
Qed.

(** *** The invariant of the page *)

Lemma page_ok_initial : page_ok (initial_dom (num := num)).
Proof.
  split; [cbn; lia|]. intros h Hh. unfold initial_dom. cbn [elems].
  destruct h as [|[|[|[|h]]]]; [| | | |lia]; store_lookup; eauto.
Qed.

Lemma start_page_ok (t : num) (w : World num) :
  page_ok (dom w) -> page_ok (dom (start t w)).
Proof.
  intros [Hn Hfix]. unfold page_ok, start. cbn [dom].
  rewrite buildGears_next. split; [lia|].
  intros h Hh. destruct (decide (h = gearContainer)) as [->|Hne].
  - rewrite buildGears_container by lia.
    apply fmap_is_Some, Hfix. unfold gearContainer. lia.
  - rewrite buildGears_frame by (auto; lia). auto.
Qed.

Lemma start_train_ok (t : num) (w : World num) :
  page_ok (dom w) -> train_ok (start t w) (next_handle (dom w)).
Proof.
  intros [Hn Hfix]. unfold train_ok, start. cbn [dom state gearsObj].
  rewrite (buildGears_train (dom w)), buildGears_next.
  pose proof (buildGears_groups (dom w)) as Hg. cbv zeta in Hg.
  destruct Hg as (H1 & H2 & H3 & H4).
  repeat split; try lia.
  intros k Hk. cbn [In] in Hk.
  destruct Hk as [<-|[<-|[<-|[<-|[]]]]]; eauto.
Qed.

Lemma start_ok (t : num) (w : World num) :
  page_ok (dom w) -> world_ok (start t w).
Proof.
  intros Hp. split; [apply start_page_ok, Hp|].
  exists (next_handle (dom w)). apply start_train_ok, Hp.
Qed.

Lemma start_unrotated (t : num) (w : World num) (k : nat) :
  In k [2; 5; 8] ->
  getAttribute_data_rot (k + next_handle (dom w)) (dom (start t w)) = None.
Proof.
  intros Hk. unfold start, getAttribute_data_rot. cbn [dom].
  pose proof (buildGears_groups (dom w)) as Hg. cbv zeta in Hg.
  destruct Hg as (H1 & H2 & H3 & _). cbn [In] in Hk.
  destruct Hk as [<-|[<-|[<-|[]]]];
    first [rewrite H1|rewrite H2|rewrite H3]; reflexivity.
Qed.

Lemma loop_ok (now : Date) (w w' : World num) :
  world_ok w -> loop now w = Scheduled w' -> world_ok w'.
Proof.
  intros [[Hn Hfix] [n (Hg & Hn4 & Hnext & Hpres)]] Hloop.
  assert (state w' = state w /\ next_handle (dom w') = next_handle (dom w) /\
          forall h, is_Some (elems (dom w') !! h) <->
                    is_Some (elems (dom w) !! h)) as (Hst & Hnx & Hiff).
  { destruct (running w) eqn:Hrun.
    - destruct (loop_running now w n Hrun Hg Hn4)
        as (w1 & Hl & _ & ? & ? & ? & _).
      rewrite Hl in Hloop. injection Hloop as <-. auto.
    - destruct (loop_paused now w Hrun) as (w1 & Hl & _ & ? & ? & ? & _).
      rewrite Hl in Hloop. injection Hloop as <-. auto. }
  split; [split|exists n; repeat split].
  - lia.
  - intros h Hh. apply Hiff. auto.
  - rewrite Hst. exact Hg.
  - exact Hn4.
  - lia.
  - intros k Hk. apply Hiff. auto.
Qed.

Lemma click_ok (w : World num) : world_ok w -> world_ok (click w).
Proof.
  intros [[Hn Hfix] [n (Hg & Hn4 & Hnext & Hpres)]].
  unfold world_ok, page_ok, train_ok, click, update.
  cbn [dom state next_handle elems].
  split; [split; [exact Hn|]|exists n; repeat split; auto].
  - intros h Hh. rewrite lookup_alter_is_Some. auto.
  - intros k Hk. rewrite lookup_alter_is_Some. auto.
Qed.

Lemma reachable_ok (w : World num) : reachable w -> world_ok w.
Proof.
  induction 1 as [t|now w w' _ IH _ Hl|w _ IH|t w _ IH].
  - apply start_ok, page_ok_initial.
  - exact (loop_ok now w w' IH Hl).
  - apply click_ok, IH.
  - apply start_ok, IH.
Qed.

End Store.

(** ** The animator, frame by frame *)

Section Animator.

Context {num : Type} `{!JsNum num} `{!JsTrig num}.

Lemma train_groups_present (w : World num) (n : handle) :
  train_ok w n ->
  Forall (fun g => is_Some (elems (dom w) !! group (shape g)))
         (pinion (train_at n) :: gears (train_at n)).
Proof.
  intros (_ & _ & _ & Hpres).
  repeat constructor; cbn [pinion gears train_at shape shape_at group];
    [apply (Hpres 11)|apply (Hpres 2)|apply (Hpres 5)|apply (Hpres 8)];
    cbn; tauto.
Qed.

Lemma current_rotation_absent : current_rotation None = ofZ 0.
Proof.
  unfold current_rotation. rewrite reparse_zero.
  destruct (falsy (ofZ 0)); reflexivity.
Qed.

(** What a frame reads back: the stored number itself, and [0] when the
    attribute is absent or holds a zero or [NaN]. *)
Lemma current_rotation_read (stored : option num) :
  current_rotation stored =
  match stored with
  | Some x => if falsy x then ofZ 0 else x
  | None => ofZ 0
  end.
Proof.
  destruct stored as [x|]; [|apply current_rotation_absent].
  unfold current_rotation. rewrite reparse_falsy.
  destruct (falsy x) eqn:Hx; [reflexivity|].
  apply reparse_truthy, Hx.
Qed.

Lemma frames_cons (now : Date) (nows : list Date) (w w1 : World num) :
  loop now w = Scheduled w1 -> frames (now :: nows) w = frames nows w1.
Proof. intros Hl. unfold frames. cbn [fold_left]. rewrite Hl. reflexivity. Qed.

Lemma frames_snoc (now : Date) (nows : list Date) (w w1 : World num) :
  frames nows w = Scheduled w1 -> frames (nows ++ [now]) w = loop now w1.
Proof.
  intros Hf. unfold frames in *. rewrite fold_left_app, Hf. reflexivity.
Qed.

(** Frames while paused leave every element but the two hands as it was. *)
Lemma paused_frames_frame (nows : list Date) (w : World num) :
  world_ok w -> running w = false ->
  exists w',
    frames nows w = Scheduled w' /\ world_ok w' /\ running w' = false /\
    state w' = state w /\
    forall h, h <> minuteGroup -> h <> hourGroup ->
              elems (dom w') !! h = elems (dom w) !! h.
Proof.
  revert w. induction nows as [|now nows IH]; intros w Hok Hrun.
  - exists w. split; [reflexivity|]. auto.
  - destruct (loop_paused now w Hrun)
      as (w1 & Hl & Hr1 & Hst1 & _ & _ & Hfr1 & _).
    destruct (IH w1 (loop_ok now w w1 Hok Hl) Hr1)
      as (w' & Hf & Hok' & Hr' & Hst' & Hfr').
    exists w'. rewrite (frames_cons now nows w w1 Hl).
    split; [exact Hf|]. split; [exact Hok'|]. split; [exact Hr'|].
    split; [congruence|].
    intros h H1 H2. rewrite Hfr', Hfr1; auto.
Qed.

Lemma rotation_after_succ (turn : num) (P T n : nat) (stored : option num) :
  rotation_after turn P T (S n) stored =
  rotation_after turn P T n (Some (next_rotation turn P T stored)).
Proof.
  unfold rotation_after. rewrite Nat.iter_succ_r. reflexivity.
Qed.

(** A running frame replaces the stored rotation of every gear by its
    [next_rotation]. *)
Lemma loop_running_stored (now : Date) (w : World num) (k : handle) :
  running w = true -> train_ok w k ->
  exists w',
    loop now w = Scheduled w' /\ running w' = true /\ train_ok w' k /\
    Forall (fun g =>
              getAttribute_data_rot (group (shape g)) (dom w') =
              Some (next_rotation (minuteAngle (getClockAngles now)) 10
                      (teeth (shape g))
                      (getAttribute_data_rot (group (shape g)) (dom w))))
           (gears (train_at k)).
Proof.
  intros Hrun Htr.
  pose proof (train_groups_present w k Htr) as Hpres.
  apply Forall_cons in Hpres as [_ Hpres].
  destruct Htr as (Hg & Hk4 & Hnext & Hp).
  destruct (loop_running now w k Hrun Hg Hk4)
    as (w1 & Hl & Hr1 & Hst1 & Hnx1 & Hiff1 & _ & _ & _ & _ & Hgears).
  exists w1. split; [exact Hl|]. split; [exact Hr1|]. split.
  - split; [rewrite Hst1; exact Hg|]. split; [exact Hk4|].
    split; [lia|]. intros j Hj. apply Hiff1, Hp, Hj.
  - pose proof (conj Hgears Hpres) as Hall. rewrite <- Forall_and in Hall.
    eapply Forall_impl; [exact Hall|].
    intros g (H2 & [e He]). cbv beta zeta in H2.
    unfold getAttribute_data_rot in *. rewrite H2, He. reflexivity.
Qed.

(** A running frame turns the pinion to the minute angle. *)
Lemma loop_running_pinion (now : Date) (w : World num) (k : handle) :
  running w = true -> train_ok w k ->
  exists w',
    loop now w = Scheduled w' /\
    transform_of (group (shape (pinion (train_at k)))) (dom w') =
      Some (TranslateRotate (ofZ 0) (ofZ 0) (minuteAngle (getClockAngles now))).
Proof.
  intros Hrun Htr.
  pose proof (train_groups_present w k Htr) as Hpres.
  apply Forall_cons in Hpres as [[e He] _].
  destruct Htr as (Hg & Hk4 & _ & _).
  destruct (loop_running now w k Hrun Hg Hk4)
    as (w' & Hl & _ & _ & _ & _ & _ & _ & _ & Hpin & _).
  exists w'. split; [exact Hl|].
  unfold transform_of.
  cbn [pinion train_at shape shape_at group Nat.add] in *.
  rewrite Hpin, He. reflexivity.
Qed.

(** Running frames that read the same time iterate [next_rotation] on the
    stored rotation of every gear. *)
Lemma running_frames_rotation (now : Date) (n : nat) (w : World num)
    (k : handle) :
  world_ok w -> running w = true -> train_ok w k ->
  exists w',
    frames (repeat now n) w = Scheduled w' /\ world_ok w' /\
    running w' = true /\ train_ok w' k /\
    Forall (fun g =>
              getAttribute_data_rot (group (shape g)) (dom w') =
              rotation_after (minuteAngle (getClockAngles now)) 10
                (teeth (shape g)) n
                (getAttribute_data_rot (group (shape g)) (dom w)))
           (gears (train_at k)).
Proof.
  revert w. induction n as [|n IH]; intros w Hok Hrun Htr.
  - exists w. split; [reflexivity|]. split; [exact Hok|].
    split; [exact Hrun|]. split; [exact Htr|].
    apply List.Forall_forall. intros g _. reflexivity.
  - destruct (loop_running_stored now w k Hrun Htr)
      as (w1 & Hl & Hr1 & Htr1 & Hgears).
    destruct (IH w1 (loop_ok now w w1 Hok Hl) Hr1 Htr1)
      as (w' & Hf & Hok' & Hr' & Htr' & Hrot).
    exists w'. cbn [repeat]. rewrite (frames_cons now _ w w1 Hl).
    split; [exact Hf|]. split; [exact Hok'|]. split; [exact Hr'|].
    split; [exact Htr'|].
    pose proof (conj Hrot Hgears) as Hall. rewrite <- Forall_and in Hall.
    eapply Forall_impl; [exact Hall|].
    intros g (H1 & H2). rewrite rotation_after_succ, H1, H2. reflexivity.
Qed.

End Animator.

Section AnimatorClaims.

Context {num : Type} `{!JsNum num} `{!JsTrig num}.

(** C3.  On a frame in the running state the pinion's rotation is set to
    [minuteAngle] itself.  Every visible gear with tooth count [T] gets the
    target [- pinionRotation * (10 / T)]; its current rotation is the number
    the previous frame stored in [data-rot] (and [0] when nothing is stored
    or the stored number is a zero or [NaN]); its rotation becomes
    [cur + (target - cur) * 0.14], and this value is both applied as the
    gear's transform and stored in [data-rot].  The next running frame
    starts from the value stored: it moves the gear to
    [next + (target' - next) * 0.14]. *)
Theorem loop_running_rotations (w : World num) (now : Date) :
  reachable w -> running w = true ->
  exists w' tr,
    loop now w = Scheduled w' /\
    gearsObj (state w) = Some tr /\ gearsObj (state w') = Some tr /\
    let pinionRotation := minuteAngle (getClockAngles now) in
    transform_of (group (shape (pinion tr))) (dom w') =
      Some (TranslateRotate (cx (pinion tr)) (cy (pinion tr)) pinionRotation) /\
    pinion_teeth (pinion tr) = 10 /\
    Forall
      (fun g =>
         let ratio := (ofZ 10 / ofZ (Z.of_nat (teeth (shape g))))%js in
         let cur :=
           match getAttribute_data_rot (group (shape g)) (dom w) with
           | Some x => if falsy x then ofZ 0 else x
           | None => ofZ 0
           end in
         let target := (- pinionRotation * ratio)%js in
         let next := (cur + (target - cur) * decimal 14 2)%js in
         transform_of (group (shape g)) (dom w') =
           Some (TranslateRotate (cx g) (cy g) next) /\
         getAttribute_data_rot (group (shape g)) (dom w') = Some next /\
         (falsy next = false ->
          forall now' : Date,
            let target' := (- minuteAngle (getClockAngles now') * ratio)%js in
            exists w'',
              loop now' w' = Scheduled w'' /\
              getAttribute_data_rot (group (shape g)) (dom w'') =
                Some (next + (target' - next) * decimal 14 2)%js))
      (gears tr).
Proof.
  intros Hreach Hrun.
  destruct (reachable_ok w Hreach) as [_ [n Hok]].
  pose proof (train_groups_present w n Hok) as Hpres.
  destruct (loop_running_stored now w n Hrun Hok)
    as (w1 & Hl1 & Hrun1 & Hok1 & _).
  destruct Hok as (Hg & Hn4 & _ & _).
  destruct (loop_running now w n Hrun Hg Hn4)
    as (w' & Hl & _ & Hst & _ & _ & _ & _ & _ & Hpin & Hgears).
  rewrite Hl in Hl1. injection Hl1 as <-.
  exists w', (train_at n).
  split; [exact Hl|]. split; [exact Hg|]. split; [rewrite Hst; exact Hg|].
  cbv zeta. apply Forall_cons in Hpres as [[e He] Hpres].
  split; [|split; [reflexivity|]].
  - unfold transform_of.
    cbn [pinion train_at shape shape_at group cx cy Nat.add] in *.
    rewrite Hpin, He. reflexivity.
  - pose proof (conj Hgears Hpres) as Hall. apply Forall_and in Hall.
    apply List.Forall_forall. intros g Hin.
    rewrite List.Forall_forall in Hall. destruct (Hall g Hin) as [Hup [e' He']].
    cbv beta in Hup.
    assert (getAttribute_data_rot (group (shape g)) (dom w') =
            Some (next_rotation (minuteAngle (getClockAngles now)) 10
                    (teeth (shape g))
                    (getAttribute_data_rot (group (shape g)) (dom w)))) as Hrot.
    { unfold getAttribute_data_rot in *. rewrite Hup, He'. reflexivity. }
    unfold next_rotation in Hrot. rewrite current_rotation_read in Hrot.
    change (Z.of_nat 10) with 10%Z in Hrot.
    split; [|split; [exact Hrot|]].
    + unfold transform_of. rewrite Hup, He'. cbn.
      unfold next_rotation. rewrite current_rotation_read.
      unfold getAttribute_data_rot. rewrite He'. reflexivity.
    + intros Hnext now'.
      destruct (loop_running_stored now' w' n Hrun1 Hok1)
        as (w'' & Hl' & _ & _ & Hgears').
      exists w''. split; [exact Hl'|].
      rewrite List.Forall_forall in Hgears'. rewrite (Hgears' g Hin).
      unfold next_rotation. rewrite current_rotation_read, Hrot.
      change (Z.of_nat 10) with 10%Z. rewrite Hnext. reflexivity.
Qed.

(** C4.  Frames executed while paused leave the group element of every gear
    and of the pinion exactly as it was when the pause began, the stored
    rotation and the transform included, while each frame sets the minute
    and the hour hand from the time it reads. *)
Theorem paused_frames_freeze (w : World num) (nows : list Date) (now : Date) :
  reachable w -> running w = false ->
  exists w' tr,
    frames (nows ++ [now]) w = Scheduled w' /\ running w' = false /\
    gearsObj (state w) = Some tr /\ gearsObj (state w') = Some tr /\
    Forall (fun g => elems (dom w') !! group (shape g) =
                     elems (dom w) !! group (shape g))
           (pinion tr :: gears tr) /\
    transform_of minuteGroup (dom w') =
      Some (Rotate (minuteAngle (getClockAngles now))) /\
    transform_of hourGroup (dom w') =
      Some (Rotate (hourAngle (getClockAngles now))).
Proof.
  intros Hreach Hrun.
  pose proof (reachable_ok w Hreach) as Hok.
  destruct (paused_frames_frame nows w Hok Hrun)
    as (w1 & Hf & Hok1 & Hr1 & Hst1 & Hfr1).
  destruct (loop_paused now w1 Hr1)
    as (w' & Hl & Hr' & Hst' & _ & _ & Hfr' & Hmin & Hhour).
  destruct Hok as [_ [n (Hg & Hn4 & _ & _)]].
  destruct Hok1 as [[_ Hfix] _].
  exists w', (train_at n).
  rewrite (frames_snoc now nows w w1 Hf).
  split; [exact Hl|]. split; [exact Hr'|]. split; [exact Hg|].
  split; [congruence|]. split; [|split].
  - unfold minuteGroup, hourGroup in *.
    repeat constructor; cbn [pinion gears train_at shape shape_at group];
      rewrite Hfr', Hfr1 by lia; reflexivity.
  - unfold transform_of. rewrite Hmin.
    destruct (Hfix minuteGroup) as [e He]; [unfold minuteGroup; lia|].
    rewrite He. reflexivity.
  - unfold transform_of. rewrite Hhour.
    destruct (Hfix hourGroup) as [e He]; [unfold hourGroup; lia|].
    rewrite He. reflexivity.
Qed.

(** C8.  Running the builder again, in whatever state the page is, empties
    the container of what the earlier build put there and fills it with the
    groups of a new train; the new train has the same centers and tooth
    counts as the old one, and its gears start from their build transform
    with no stored rotation. *)
Theorem buildGears_rebuild (w : World num) :
  reachable w ->
  exists old new,
    gearsObj (state w) = Some old /\ fst (buildGears (dom w)) = new /\
    map placement (gears new) = map placement (gears old) /\
    placement (pinion new) = placement (pinion old) /\
    children <$> elems (snd (buildGears (dom w))) !! gearContainer =
      Some (map (fun g => group (shape g)) (gears new ++ [pinion new])) /\
    Forall (fun g => group (shape g) < next_handle (dom w))
           (pinion old :: gears old) /\
    Forall (fun g => next_handle (dom w) <= group (shape g) /\
                     transform_of (group (shape g)) (snd (buildGears (dom w))) =
                       Some (Translate (cx g) (cy g)) /\
                     getAttribute_data_rot (group (shape g))
                       (snd (buildGears (dom w))) = None)
           (pinion new :: gears new).
Proof.
  intros Hreach.
  destruct (reachable_ok w Hreach) as [[Hn Hfix] [n (Hg & Hn4 & Hnext & _)]].
  exists (train_at n), (train_at (next_handle (dom w))).
  split; [exact Hg|]. split; [apply buildGears_train|].
  split; [reflexivity|]. split; [reflexivity|]. split; [|split].
  - rewrite buildGears_container by lia.
    destruct (Hfix gearContainer) as [e He]; [unfold gearContainer; lia|].
    rewrite He. reflexivity.
  - cbn [pinion gears train_at].
    repeat first [apply List.Forall_cons|apply List.Forall_nil];
      cbn [shape shape_at group]; lia.
  - pose proof (buildGears_groups (dom w)) as Hgr. cbv zeta in Hgr.
    destruct Hgr as (H1 & H2 & H3 & H4).
    unfold transform_of, getAttribute_data_rot.
    cbn [pinion gears train_at]. cbn [Nat.add] in H1, H2, H3, H4.
    repeat first [apply List.Forall_cons|apply List.Forall_nil];
      cbn [shape shape_at group cx cy Nat.add]; (split; [lia|]);
      first [rewrite H1|rewrite H2|rewrite H3|rewrite H4]; split; reflexivity.
Qed.

(** C10.  A gear whose stored rotation is absent, or is a value that reads
    back as [NaN] or zero, is taken to stand at [0]: the frame sets its
    rotation to [0 + (target - 0) * 0.14], which is [0.14 * target]
    ([real_rotation_from_rest], [float_rotation_from_rest]).  A build leaves
    every gear without a stored rotation, so this is what the first running
    frame after a (re)build does to each gear. *)
Theorem first_frame_rotation (w : World num) (now : Date) (tr : Train num)
    (g : Gear num) :
  reachable w -> running w = true ->
  gearsObj (state w) = Some tr -> In g (gears tr) ->
  let stored := getAttribute_data_rot (group (shape g)) (dom w) in
  let target (g : Gear num) :=
    (- minuteAngle (getClockAngles now) *
       (ofZ 10 / ofZ (Z.of_nat (teeth (shape g)))))%js in
  let from_rest (g : Gear num) :=
    (ofZ 0 + (target g - ofZ 0) * decimal 14 2)%js in
  (stored = None \/ exists x, stored = Some x /\ falsy (reparse x) = true) ->
  (exists w',
     loop now w = Scheduled w' /\ current_rotation stored = ofZ 0 /\
     getAttribute_data_rot (group (shape g)) (dom w') = Some (from_rest g)) /\
  (forall t, exists w' tr',
     gearsObj (state (start t w)) = Some tr' /\
     Forall (fun g' => getAttribute_data_rot (group (shape g'))
                         (dom (start t w)) = None) (gears tr') /\
     loop now (start t w) = Scheduled w' /\
     Forall (fun g' => getAttribute_data_rot (group (shape g')) (dom w') =
                       Some (from_rest g')) (gears tr')).
Proof.
  intros Hreach Hrun Htr Hin stored target from_rest Hstored.
  pose proof (reachable_ok w Hreach) as Hok.
  assert (current_rotation stored = ofZ 0) as Hcur.
  { destruct Hstored as [->|(x & -> & Hx)].
    - apply current_rotation_absent.
    - unfold current_rotation. rewrite Hx. reflexivity. }
  split.
  - destruct Hok as [_ [n Hn]]. pose proof Hn as (Hg & _).
    rewrite Hg in Htr. apply (inj Some) in Htr. subst tr.
    destruct (loop_running_stored now w n Hrun Hn)
      as (w' & Hl & _ & _ & Hgears).
    exists w'. split; [exact Hl|]. split; [exact Hcur|].
    rewrite List.Forall_forall in Hgears. rewrite (Hgears g Hin).
    fold stored. unfold next_rotation. rewrite Hcur. reflexivity.
  - intros t.
    assert (train_ok (start t w) (next_handle (dom w))) as Hn'
      by (apply start_train_ok, Hok).
    assert (running (start t w) = true) as Hrun' by exact Hrun.
    destruct (loop_running_stored now (start t w) _ Hrun' Hn')
      as (w' & Hl & _ & _ & Hgears).
    exists w', (train_at (next_handle (dom w))).
    split; [exact (proj1 Hn')|].
    assert (Forall (fun g' => getAttribute_data_rot (group (shape g'))
                                (dom (start t w)) = None)
                   (gears (train_at (next_handle (dom w))))) as Hnone.
    { pose proof (start_unrotated t w) as Hrest.
      cbn [gears train_at].
      repeat first [apply List.Forall_cons|apply List.Forall_nil];
        cbn [shape shape_at group];
        [apply (Hrest 2)|apply (Hrest 5)|apply (Hrest 8)]; cbn; tauto. }
    split; [exact Hnone|]. split; [exact Hl|].
    pose proof (conj Hgears Hnone) as Hall. apply Forall_and in Hall.
    eapply Forall_impl; [exact Hall|].
    intros g' [Hrot Hn0]. rewrite Hrot, Hn0.
    unfold next_rotation. rewrite current_rotation_absent. reflexivity.
Qed.

Lemma mapM_place_gear_teeth (cfg : list (config_row num)) (d : DOM num) :
  map (fun g => teeth (shape g)) (fst (mapM place_gear cfg d)) =
  map c_teeth cfg.
Proof.
  revert d. induction cfg as [|c cfg IH]; intros d; [reflexivity|].
  cbn [mapM map]. unfold mbind at 1, dom_bind.
  destruct (place_gear c d) as [g d1] eqn:Hg.
  unfold mbind at 1, dom_bind. specialize (IH d1).
  destruct (mapM place_gear cfg d1) as [k d2].
  unfold mret, dom_ret. cbn [fst map] in *. rewrite IH. f_equal.
  rewrite <- (place_gear_teeth c d), Hg. reflexivity.
Qed.

(** C6, as the code has it.  The builder validates nothing and reports
    nothing: whatever table it is given, a row with tooth count zero
    included, it returns a train with exactly the tooth counts of the
    table.  Division by a zero tooth count does not arise because the
    table of the script is fixed: in every state of the page the gears have
    44, 22 and 14 teeth and the pinion 10, so every ratio [10 / teeth] the
    loop forms has a nonzero denominator. *)
Theorem tooth_counts_nonzero (w : World num) :
  reachable w ->
  (exists tr,
     gearsObj (state w) = Some tr /\
     map (fun g => teeth (shape g)) (gears tr) = [44; 22; 14] /\
     pinion_teeth (pinion tr) = 10 /\
     Forall (fun g => 0 < teeth (shape g)) (gears tr)) /\
  (forall cfg d,
     map (fun g => teeth (shape g)) (gears (fst (buildGearsFrom cfg d))) =
     map c_teeth cfg).
Proof.
  intros Hreach. split.
  - destruct (reachable_ok w Hreach) as [_ [n (Hg & _)]].
    exists (train_at n). split; [exact Hg|].
    split; [reflexivity|]. split; [reflexivity|].
    cbn [gears train_at].
    repeat first [apply List.Forall_cons|apply List.Forall_nil];
      cbn [shape shape_at teeth]; lia.
  - intros cfg d. rewrite buildGearsFrom_gears.
    apply mapM_place_gear_teeth.
Qed.

End AnimatorClaims.

(** ** Exact geometry of the gear outline *)

Section Geometry.

Local Open Scope R_scope.

Lemma decimal_real (m : Z) (k : nat) :
  decimal (num := R) m k = IZR m / IZR (10 ^ Z.of_nat k).
Proof. reflexivity. Qed.

Lemma gear_vertices_lookup {num : Type} `{!JsNum num} `{!JsTrig num}
    (t : nat) (r td : num) (i : nat) :
  (i < t * 4)%nat ->
  gear_vertices t r td !! i = Some (gear_vertex t r td i).
Proof.
  intros Hi. unfold gear_vertices.
  rewrite list_lookup_fmap, lookup_seq_lt by exact Hi. reflexivity.
Qed.

Lemma gear_vertices_length {num : Type} `{!JsNum num} `{!JsTrig num}
    (t : nat) (r td : num) :
  length (gear_vertices t r td) = (t * 4)%nat.
Proof. unfold gear_vertices. rewrite length_map, length_seq. reflexivity. Qed.

Lemma gear_d_length {num : Type} `{!JsNum num} `{!JsTrig num}
    (t : nat) (r td : num) :
  length (gear_d t r td) = (t * 4)%nat.
Proof. unfold gear_d. rewrite length_map. apply gear_vertices_length. Qed.

Lemma gear_radius_real (r td : R) (i : nat) :
  gear_radius r (r + td)%js td i = step_radius r td i.
Proof.
  unfold gear_radius, step_radius.
  pose proof (Nat.mod_upper_bound i 4 ltac:(lia)) as Hlt.
  destruct (i mod 4)%nat as [|[|[|[|k]]]]; cbn [Nat.eqb]; try lia;
    rewrite ?decimal_real; cbn [add mul real_num];
    change (10 ^ Z.of_nat 2)%Z with 100%Z; lra.
Qed.

Lemma gear_theta_real (t i : nat) :
  (0 < t)%nat ->
  gear_theta (t * 4) i = 2 * PI * INR i / (4 * INR t).
Proof.
  intros Ht. unfold gear_theta. cbn [ofZ add mul div real_num Math_PI real_trig].
  rewrite <- !INR_IZR_INZ, mult_INR. cbn [INR].
  assert (0 < INR t) by (apply lt_0_INR; lia).
  field. lra.
Qed.

Lemma step_radius_bounds (r td : R) (i : nat) :
  0 < r -> 0 <= td -> 0 < step_radius r td i <= r + td.
Proof.
  intros Hr Htd. unfold step_radius.
  destruct (i mod 4)%nat as [|[|[|k]]]; lra.
Qed.

Lemma polar_radius (rho theta : R) :
  0 <= rho -> vertex_radius (rho * cos theta, rho * sin theta) = rho.
Proof.
  intros Hrho. unfold vertex_radius. cbn [fst snd].
  replace (rho * cos theta * (rho * cos theta) + rho * sin theta * (rho * sin theta))
    with (Rsqr rho * (Rsqr (sin theta) + Rsqr (cos theta)))
    by (unfold Rsqr; ring).
  rewrite sin2_cos2, Rmult_1_r. apply sqrt_Rsqr. exact Hrho.
Qed.

Lemma string_app_assoc (s1 s2 s3 : string) :
  ((s1 ++ s2) ++ s3 = s1 ++ (s2 ++ s3))%string.
Proof.
  induction s1 as [|c s1 IH]; [reflexivity|].
  change (String c ((s1 ++ s2) ++ s3) = String c (s1 ++ (s2 ++ s3)))%string.
  rewrite IH. reflexivity.
Qed.

(** With at least one tooth, [d[0]] and the joined rest are the joined
    whole. *)
Lemma gear_pathD_joined {num : Type} `{!JsNum num} `{!JsTrig num}
    (t : nat) (r td : num) :
  (1 <= t)%nat ->
  gear_pathD (gear_d t r td) =
  ("M " ++ String.concat " L " (gear_d t r td) ++ " Z")%string.
Proof.
  intros Ht. pose proof (gear_d_length t r td) as Hlen.
  destruct (gear_d t r td) as [|a [|b l]]; cbn [length] in Hlen; try lia.
  unfold gear_pathD. cbn [nth tl String.concat].
  rewrite !string_app_assoc. reflexivity.
Qed.

Lemma step_radius_abs (r td : R) (i : nat) :
  Rabs (step_radius r td i) <= Rabs r + Rabs td.
Proof.
  unfold step_radius.
  destruct (i mod 4)%nat as [|[|[|k]]]; unfold Rabs;
    repeat destruct (Rcase_abs _); lra.
Qed.

End Geometry.

(** ** Rounding of the emitted coordinates *)

Section Rounding.

Local Open Scope R_scope.

Lemma Rabs_le_bounds (a b : R) : Rabs a <= b -> - b <= a <= b.
Proof. unfold Rabs. destruct (Rcase_abs a); lra. Qed.

Lemma hundredths_bounds (x : R) :
  (0 <= Exact.hundredths x)%Z /\
  Rabs (IZR (Exact.hundredths x) / 100 - Rabs x) <= 1 / 200.
Proof.
  unfold Exact.hundredths.
  pose proof (Zfloor_bound (100 * Rabs x + / 2)) as [Hlo Hhi].
  pose proof (Rabs_pos x) as Hx.
  split.
  - apply Zfloor_lub. lra.
  - apply Rabs_le. lra.
Qed.

Lemma printed_close (x : R) : Rabs (printed x - x) <= 1 / 200.
Proof.
  pose proof (hundredths_bounds x) as [_ Hb]. apply Rabs_le_bounds in Hb.
  unfold printed, Exact.is_negative. apply Rabs_le.
  destruct (Rlt_dec x 0) as [Hneg|Hpos].
  - rewrite (Rabs_left x Hneg) in Hb. lra.
  - rewrite (Rabs_right x) in Hb by lra. lra.
Qed.

Lemma digit_char_digit (d : Z) :
  (0 <= d <= 9)%Z ->
  is_digit (digit_char d) = true /\ digit_value (digit_char d) = d.
Proof.
  intros Hd.
  assert (d = 0 \/ d = 1 \/ d = 2 \/ d = 3 \/ d = 4 \/ d = 5 \/ d = 6 \/
          d = 7 \/ d = 8 \/ d = 9)%Z as Hc by lia.
  repeat destruct Hc as [->|Hc]; try subst d; split; reflexivity.
Qed.

Lemma toFixed2_below (x : R) :
  Rabs x < 1000000000000000000000 ->
  toFixed2 x = render_fixed2 (Exact.is_negative x) (Exact.hundredths x).
Proof.
  intros Hx. cbn [toFixed2 real_num]. unfold Exact.toFixed2.
  destruct (Rle_dec _ _) as [Hge|_]; [lra|reflexivity].
Qed.

Lemma toFixed2_two_decimals (x : R) :
  Rabs x < 1000000000000000000000 -> two_decimals (toFixed2 x) (printed x).
Proof.
  intros Hx. rewrite (toFixed2_below x Hx).
  pose proof (hundredths_bounds x) as [Hn _].
  set (n := Exact.hundredths x) in *.
  exists (Exact.is_negative x),
         (NilZero.string_of_uint (N.to_uint (Z.to_N (n / 100)))),
         (digit_char (n mod 100 / 10)), (digit_char (n mod 10)).
  assert (0 <= n mod 100 / 10 <= 9)%Z as H1.
  { pose proof (Z.mod_pos_bound n 100 ltac:(lia)).
    split; [apply Z.div_pos; lia|].
    apply Z.lt_succ_r, Z.div_lt_upper_bound; lia. }
  assert (0 <= n mod 10 <= 9)%Z as H2
    by (pose proof (Z.mod_pos_bound n 10 ltac:(lia)); lia).
  destruct (digit_char_digit _ H1) as [Hd1 Hv1].
  destruct (digit_char_digit _ H2) as [Hd2 Hv2].
  split; [reflexivity|]. split; [exact Hd1|]. split; [exact Hd2|].
  unfold text_value. rewrite NilZero.usu.
  - rewrite DecimalN.Unsigned.of_to, Hv1, Hv2, Z2N.id
      by (apply Z.div_pos; lia).
    unfold printed. fold n. f_equal. f_equal.
    assert (n = 100 * (n / 100) + 10 * (n mod 100 / 10) + n mod 10)%Z as Hsplit.
    { clear. Z.div_mod_to_equations. lia. }
    apply (f_equal IZR) in Hsplit. rewrite !plus_IZR, !mult_IZR in Hsplit.
    lra.
  - destruct (Z.to_N (n / 100)); [discriminate|].
    apply DecimalPos.Unsigned.to_uint_nonnil.
Qed.

(** At [10^21] the exact reading leaves the two-decimal form as well. *)
Example real_toFixed2_large : toFixed2 (1000000000000000000000 : R) = "1e+21".
Proof.
  cbn [toFixed2 real_num]. unfold Exact.toFixed2.
  rewrite Rabs_right by lra.
  destruct (Rle_dec _ _) as [_|Hn]; [|lra].
  unfold Exact.is_negative. destruct (Rlt_dec _ _) as [Hneg|_]; [lra|].
  unfold Exact.to_exponent. rewrite ZfloorZ.
  change (decimal_digits 1000000000000000000000) with 22%Z.
  change (10 ^ (22 - 17))%Z with 100000%Z.
  assert (Zfloor (1000000000000000000000 / 100000 + / 2) = 10000000000000000%Z)
    as -> by (apply Zfloor_eq; lra).
  reflexivity.
Qed.

(** Moving each coordinate by at most [delta] moves the distance from the
    center by at most [2 delta]. *)
Lemma vertex_radius_close (x y x' y' delta : R) :
  Rabs (x' - x) <= delta -> Rabs (y' - y) <= delta ->
  Rabs (vertex_radius (x', y') - vertex_radius (x, y)) <= 2 * delta.
Proof.
  intros Hx Hy. apply Rabs_le_bounds in Hx, Hy.
  unfold vertex_radius. cbn [fst snd].
  assert (0 <= x * x + y * y) as Hs by nra.
  assert (0 <= x' * x' + y' * y') as Hs' by nra.
  pose proof (sqrt_pos (x * x + y * y)) as Hn.
  pose proof (sqrt_pos (x' * x' + y' * y')) as Hn'.
  pose proof (sqrt_sqrt _ Hs) as Hq. pose proof (sqrt_sqrt _ Hs') as Hq'.
  set (N := sqrt (x * x + y * y)) in *.
  set (N' := sqrt (x' * x' + y' * y')) in *.
  assert (- N <= x <= N) as Bx by (split; nra).
  assert (- N <= y <= N) as By by (split; nra).
  assert (- N' <= x' <= N') as Bx' by (split; nra).
  assert (- N' <= y' <= N') as By' by (split; nra).
  assert (0 <= delta) as Hd by lra.
  apply Rabs_le. split.
  - apply Rnot_lt_le. intros Hc.
    assert ((N' + 2 * delta) * (N' + 2 * delta) < N * N) by nra.
    nra.
  - apply Rnot_lt_le. intros Hc.
    assert ((N + 2 * delta) * (N + 2 * delta) < N' * N') by nra.
    nra.
Qed.

(** A coordinate is no larger than the radius it is computed from. *)
Lemma coordinate_below (r td : R) (t i : nat) :
  Rabs r + Rabs td < 1000000000000000000000 ->
  Rabs (fst (gear_vertex t r td i)) < 1000000000000000000000 /\
  Rabs (snd (gear_vertex t r td i)) < 1000000000000000000000.
Proof.
  intros Hb. unfold gear_vertex. cbn [fst snd]. rewrite gear_radius_real.
  cbn [mul real_num Math_cos Math_sin real_trig]. rewrite !Rabs_mult.
  pose proof (step_radius_abs r td i) as Hr.
  pose proof (Rabs_pos (step_radius r td i)) as Hp.
  assert (Rabs (cos (gear_theta (t * 4) i)) <= 1) as Hc
    by (apply Rabs_le, COS_bound).
  assert (Rabs (sin (gear_theta (t * 4) i)) <= 1) as Hs
    by (apply Rabs_le, SIN_bound).
  pose proof (Rabs_pos (cos (gear_theta (t * 4) i))).
  pose proof (Rabs_pos (sin (gear_theta (t * 4) i))).
  split; nra.
Qed.

(** What the loop pushes for step [i]: the two-decimal texts of the computed
    coordinates, each within [0.005] of its coordinate. *)
Lemma emitted_vertex (t : nat) (r td : R) (i : nat) :
  (i < t * 4)%nat -> Rabs r + Rabs td < 1000000000000000000000 ->
  let x := fst (gear_vertex t r td i) in
  let y := snd (gear_vertex t r td i) in
  gear_d t r td !! i = Some (toFixed2 x ++ "," ++ toFixed2 y)%string /\
  two_decimals (toFixed2 x) (printed x) /\
  two_decimals (toFixed2 y) (printed y) /\
  Rabs (printed x - x) <= 1 / 200 /\ Rabs (printed y - y) <= 1 / 200 /\
  Rabs (vertex_radius (printed x, printed y) - vertex_radius (x, y))
    <= 1 / 100.
Proof.
  intros Hi Hb. cbv zeta.
  destruct (coordinate_below r td t i Hb) as [Hx Hy].
  split.
  { unfold gear_d. rewrite list_lookup_fmap, gear_vertices_lookup by exact Hi.
    reflexivity. }
  split; [apply toFixed2_two_decimals, Hx|].
  split; [apply toFixed2_two_decimals, Hy|].
  split; [apply printed_close|]. split; [apply printed_close|].
  replace (1 / 100) with (2 * (1 / 200)) by lra.
  apply vertex_radius_close; apply printed_close.
Qed.

End Rounding.

(** ** The outline the generator emits *)

Section Outline.

Local Open Scope R_scope.

(** C1, as the code has it.  For a tooth count of at least 3, a positive
    inner radius and a nonnegative tooth depth (below [10^21], where
    [toFixed] leaves the two-decimal form), the loop computes
    [4 * toothCount] points, point [i] at angle [2 pi i / (4 toothCount)]
    and at radius [innerRadius + 0.45 toothDepth] for [i mod 4] 0 or 2,
    [innerRadius + toothDepth] for 1 and [0.68 innerRadius] for 3; none is
    farther from the center than [innerRadius + toothDepth], and point 1 is
    exactly that far.  The path element carries exactly these
    [4 * toothCount] points in order, [M p0 L p1 ... Z], each coordinate
    printed with two decimals: an emitted vertex is the computed point moved
    by at most [0.005] per coordinate, so its radius is within [0.01] of the
    radius stated for its step, and the largest emitted radius is within
    [0.01] of [innerRadius + toothDepth]. *)
Theorem makeGearPath_vertices (toothCount : nat)
    (innerRadius toothDepth centerRadius : R) (d : DOM R) :
  (3 <= toothCount)%nat -> 0 < innerRadius -> 0 <= toothDepth ->
  innerRadius + toothDepth < 1000000000000000000000 ->
  let made := makeGearPath toothCount innerRadius toothDepth centerRadius d in
  let vs := gear_vertices toothCount innerRadius toothDepth in
  let texts := gear_d toothCount innerRadius toothDepth in
  let angle (i : nat) := 2 * PI * INR i / (4 * INR toothCount) in
  let radius (i : nat) := step_radius innerRadius toothDepth i in
  length vs = (4 * toothCount)%nat /\
  (forall i, (i < 4 * toothCount)%nat ->
     vs !! i = Some (radius i * cos (angle i), radius i * sin (angle i))) /\
  (forall i v, vs !! i = Some v ->
     vertex_radius v = radius i /\ vertex_radius v <= innerRadius + toothDepth) /\
  (exists v, vs !! 1%nat = Some v /\ vertex_radius v = innerRadius + toothDepth) /\
  elems (snd made) !! path (fst made) ≫= attr_d =
    Some ("M " ++ String.concat " L " texts ++ " Z")%string /\
  length texts = (4 * toothCount)%nat /\
  (forall i, (i < 4 * toothCount)%nat ->
     exists (tx ty : string) (px py : R),
       texts !! i = Some (tx ++ "," ++ ty)%string /\
       two_decimals tx px /\ two_decimals ty py /\
       Rabs (px - radius i * cos (angle i)) <= 1 / 200 /\
       Rabs (py - radius i * sin (angle i)) <= 1 / 200 /\
       Rabs (vertex_radius (px, py) - radius i) <= 1 / 100 /\
       vertex_radius (px, py) <= innerRadius + toothDepth + 1 / 100) /\
  (exists (tx ty : string) (px py : R),
     texts !! 1%nat = Some (tx ++ "," ++ ty)%string /\
     two_decimals tx px /\ two_decimals ty py /\
     Rabs (vertex_radius (px, py) - (innerRadius + toothDepth)) <= 1 / 100).
Proof.
  intros Ht Hr Htd Hbig made vs texts angle radius.
  assert (Rabs innerRadius + Rabs toothDepth < 1000000000000000000000) as Hb
    by (rewrite !Rabs_right by lra; exact Hbig).
  assert (forall i, (i < 4 * toothCount)%nat ->
            gear_vertex toothCount innerRadius toothDepth i =
            (radius i * cos (angle i), radius i * sin (angle i))) as Hgv.
  { intros i Hi. unfold gear_vertex.
    rewrite gear_radius_real, gear_theta_real by lia. reflexivity. }
  assert (forall i, (i < 4 * toothCount)%nat ->
            vs !! i = Some (radius i * cos (angle i), radius i * sin (angle i)))
    as Hvs.
  { intros i Hi. subst vs. rewrite gear_vertices_lookup by lia.
    rewrite Hgv by exact Hi. reflexivity. }
  assert (forall i, (i < 4 * toothCount)%nat ->
     exists (tx ty : string) (px py : R),
       texts !! i = Some (tx ++ "," ++ ty)%string /\
       two_decimals tx px /\ two_decimals ty py /\
       Rabs (px - radius i * cos (angle i)) <= 1 / 200 /\
       Rabs (py - radius i * sin (angle i)) <= 1 / 200 /\
       Rabs (vertex_radius (px, py) - radius i) <= 1 / 100) as Hem.
  { intros i Hi.
    destruct (emitted_vertex toothCount innerRadius toothDepth i ltac:(lia) Hb)
      as (Htxt & Hx & Hy & Hcx & Hcy & Hrad).
    rewrite (Hgv i Hi) in Htxt, Hx, Hy, Hcx, Hcy, Hrad. cbn [fst snd] in *.
    pose proof (step_radius_bounds innerRadius toothDepth i Hr Htd) as Hsb.
    fold (radius i) in Hsb. rewrite polar_radius in Hrad by lra.
    eexists _, _, _, _. repeat split; eassumption. }
  split; [subst vs; rewrite gear_vertices_length; lia|].
  split; [exact Hvs|]. split; [|split; [|split; [|split; [|split]]]].
  - intros i v Hv.
    assert (i < 4 * toothCount)%nat as Hi.
    { apply lookup_lt_Some in Hv. subst vs.
      rewrite gear_vertices_length in Hv. lia. }
    rewrite (Hvs i Hi) in Hv. injection Hv as <-.
    pose proof (step_radius_bounds innerRadius toothDepth i Hr Htd) as Hsb.
    fold (radius i) in Hsb. rewrite polar_radius by lra. split; [reflexivity|lra].
  - eexists. split; [apply Hvs; lia|].
    pose proof (step_radius_bounds innerRadius toothDepth 1 Hr Htd) as Hsb.
    fold (radius 1%nat) in Hsb. rewrite polar_radius by lra. reflexivity.
  - destruct (makeGearPath_path toothCount innerRadius toothDepth centerRadius d)
      as [Hd _].
    subst made texts. rewrite Hd, gear_pathD_joined by lia. reflexivity.
  - subst texts. rewrite gear_d_length. lia.
  - intros i Hi.
    destruct (Hem i Hi) as (tx & ty & px & py & H1 & H2 & H3 & H4 & H5 & H6).
    exists tx, ty, px, py. repeat (split; [assumption|]).
    pose proof (step_radius_bounds innerRadius toothDepth i Hr Htd) as Hsb.
    fold (radius i) in Hsb. apply Rabs_le_bounds in H6. lra.
  - destruct (Hem 1%nat ltac:(lia))
      as (tx & ty & px & py & H1 & H2 & H3 & _ & _ & H6).
    exists tx, ty, px, py. repeat (split; [assumption|]). exact H6.
Qed.

Lemma sqrt2_bounds : 14142 / 10000 < sqrt 2 < 14143 / 10000.
Proof.
  pose proof (sqrt_pos 2) as Hp.
  pose proof (sqrt_sqrt 2 ltac:(lra)) as Hs.
  split; nra.
Qed.

(** The pinion ([10] teeth, [r = 8], [toothDepth = 4]) at step 25, a tooth
    tip at 225 degrees: the loop computes a point at distance [12], and the
    path gets ["-8.49,-8.49"], a vertex farther than [12.006] from the
    center. *)
Lemma pinion_tip_overshoots :
  exists x y : R,
    gear_vertices 10 8 4 !! 25%nat = Some (x, y) /\
    vertex_radius (x, y) = 8 + 4 /\
    gear_d 10 8 4 !! 25%nat = Some "-8.49,-8.49" /\
    two_decimals "-8.49" (- 849 / 100) /\
    8 + 4 + 6 / 1000 < vertex_radius (- 849 / 100, - 849 / 100).
Proof.
  pose proof sqrt2_bounds as [Hlo Hhi].
  pose proof (sqrt_sqrt 2 ltac:(lra)) as Hs2.
  assert (gear_vertex 10 8 4 25 = (- (6 * sqrt 2), - (6 * sqrt 2))) as Hv.
  { unfold gear_vertex. rewrite gear_radius_real.
    change (10 * 4)%nat with 40%nat.
    assert (gear_theta 40 25 = PI / 4 + PI) as ->.
    { unfold gear_theta. cbn [ofZ mul div real_num Math_PI real_trig].
      change (Z.of_nat 25) with 25%Z. change (Z.of_nat 40) with 40%Z. lra. }
    cbn [Math_cos Math_sin real_trig mul real_num].
    rewrite neg_cos, neg_sin, cos_PI4, sin_PI4.
    unfold step_radius. change (25 mod 4)%nat with 1%nat. cbn [ofZ real_num].
    assert (1 / sqrt 2 = sqrt 2 / 2) as -> by (field_simplify_eq; lra).
    f_equal; lra. }
  assert (Exact.is_negative (- (6 * sqrt 2)) = true) as Hneg.
  { unfold Exact.is_negative. destruct (Rlt_dec _ _) as [_|Hn]; [reflexivity|lra]. }
  assert (Exact.hundredths (- (6 * sqrt 2)) = 849%Z) as Hh.
  { unfold Exact.hundredths. apply Zfloor_eq.
    rewrite Rabs_left by lra. split; lra. }
  assert (Rabs (- (6 * sqrt 2)) < 1000000000000000000000) as Hb
    by (rewrite Rabs_left by lra; lra).
  assert (toFixed2 (- (6 * sqrt 2)) = "-8.49") as Htxt.
  { rewrite (toFixed2_below _ Hb), Hneg, Hh. reflexivity. }
  assert (printed (- (6 * sqrt 2)) = - 849 / 100) as Hpr.
  { unfold printed. rewrite Hneg, Hh. lra. }
  exists (- (6 * sqrt 2)), (- (6 * sqrt 2)).
  split; [rewrite gear_vertices_lookup by lia; rewrite Hv; reflexivity|].
  split.
  { unfold vertex_radius. cbn [fst snd].
    replace (- (6 * sqrt 2) * - (6 * sqrt 2) + - (6 * sqrt 2) * - (6 * sqrt 2))
      with ((8 + 4) * (8 + 4)) by nra.
    apply sqrt_square. lra. }
  split.
  { unfold gear_d. rewrite list_lookup_fmap, gear_vertices_lookup by lia.
    rewrite Hv. cbn [fmap option_fmap option_map fst snd]. rewrite Htxt.
    reflexivity. }
  split.
  { rewrite <- Htxt, <- Hpr. apply toFixed2_two_decimals, Hb. }
  unfold vertex_radius. cbn [fst snd].
  apply Rsqr_incrst_0; [|lra|apply sqrt_pos].
  unfold Rsqr. rewrite sqrt_sqrt by lra. lra.
Qed.


(** A gear of base radius [10^21] (three teeth, no tooth depth): the first
    point of the loop is [(10^21, 0)], and the path gets ["1e+21,0.00"],
    whose first coordinate is in exponent form, not a two-decimal
    numeral. *)
Lemma huge_radius_exponent_form :
  gear_vertices (num := R) 3 1000000000000000000000 0 !! 0%nat =
    Some (1000000000000000000000, 0) /\
  gear_d (num := R) 3 1000000000000000000000 0 !! 0%nat =
    Some "1e+21,0.00" /\
  ~ (exists q, two_decimals "1e+21" q).
Proof.
  assert (gear_vertex 3 1000000000000000000000 0 0 =
          (1000000000000000000000, 0)) as Hv.
  { unfold gear_vertex. rewrite gear_radius_real.
    assert (gear_theta (3 * 4) 0 = 0) as ->.
    { unfold gear_theta. cbn [ofZ mul div real_num Math_PI real_trig].
      change (Z.of_nat 0) with 0%Z. unfold Rdiv. lra. }
    cbn [Math_cos Math_sin real_trig mul real_num].
    rewrite cos_0, sin_0. unfold step_radius.
    change (0 mod 4)%nat with 0%nat. f_equal; lra. }
  assert (toFixed2 (0 : R) = "0.00") as Hzero.
  { rewrite toFixed2_below by (rewrite Rabs_R0; lra).
    unfold Exact.is_negative, Exact.hundredths.
    destruct (Rlt_dec 0 0) as [Hn|_]; [lra|].
    assert (Zfloor (100 * Rabs 0 + / 2) = 0%Z) as ->
      by (apply Zfloor_eq; rewrite Rabs_R0; lra).
    reflexivity. }
  split; [rewrite gear_vertices_lookup by lia; rewrite Hv; reflexivity|].
  split.
  { unfold gear_d. rewrite list_lookup_fmap, gear_vertices_lookup by lia.
    rewrite Hv. cbn [fmap option_fmap option_map fst snd].
    rewrite real_toFixed2_large, Hzero. reflexivity. }
  intros (q & negative & int_part & d1 & d2 & Htext & _).
  destruct negative; cbn in Htext; [discriminate|].
  destruct int_part as [|c1 [|c2 [|c3 [|c4 [|c5 [|c6 rest]]]]]];
    cbn in Htext; discriminate.
Qed.

End Outline.

(** ** The smoothing recurrence in exact arithmetic *)

Section Smoothing.

Local Open Scope R_scope.

Lemma current_rotation_real (stored : option R) :
  current_rotation stored = match stored with Some x => x | None => 0 end.
Proof.
  unfold current_rotation. cbn [reparse falsy ofZ real_num].
  unfold Exact.falsy.
  destruct stored as [x|]; destruct (Req_dec_T _ 0) as [E|E]; auto.
Qed.

Lemma next_rotation_real (turn : R) (T : nat) (stored : option R) :
  next_rotation turn 10 T stored =
  current_rotation stored +
  (mesh_target turn T - current_rotation stored) * (14 / 100).
Proof. reflexivity. Qed.

(** The rotation a gear gets from rest, in exact arithmetic. *)
Lemma real_rotation_from_rest (target : R) :
  (ofZ 0 + (target - ofZ 0) * decimal 14 2)%js = 0.14 * target.
Proof.
  rewrite decimal_real. cbn [ofZ add sub mul real_num].
  change (10 ^ Z.of_nat 2)%Z with 100%Z. lra.
Qed.

Lemma next_rotation_error (turn : R) (T : nat) (stored : option R) :
  current_rotation (Some (next_rotation turn 10 T stored)) - mesh_target turn T =
  86 / 100 * (current_rotation stored - mesh_target turn T).
Proof.
  rewrite (current_rotation_real (Some _)), next_rotation_real. lra.
Qed.

Lemma rotation_after_error (turn : R) (T n : nat) (stored : option R) :
  current_rotation (rotation_after turn 10 T n stored) - mesh_target turn T =
  (86 / 100) ^ n * (current_rotation stored - mesh_target turn T).
Proof.
  induction n as [|n IH]; [cbn; lra|].
  unfold rotation_after in *. rewrite Nat.iter_succ.
  rewrite next_rotation_error, IH. cbn [pow]. lra.
Qed.

Lemma minuteAngle_range (now : Date) :
  valid_date now -> 0 <= minuteAngle (getClockAngles now) < 360.
Proof.
  intros (_ & [Hm0 Hm1] & [Hs0 Hs1] & [Hl0 Hl1]).
  cbn [getClockAngles minuteAngle ofZ add mul div real_num].
  apply IZR_le in Hm0, Hs0, Hl0.
  assert (IZR (getMinutes now) <= 59) by (apply IZR_le; lia).
  assert (IZR (getSeconds now) <= 59) by (apply IZR_le; lia).
  assert (IZR (getMilliseconds now) <= 999) by (apply IZR_le; lia).
  lra.
Qed.

Lemma mesh_target_range (turn : R) (T : nat) :
  0 <= turn < 360 -> In T [44; 22; 14]%nat ->
  -258 < mesh_target turn T <= 0 /\ (0 < turn -> mesh_target turn T < 0).
Proof.
  intros Hturn HT. unfold mesh_target. cbn [In] in HT.
  destruct HT as [<-|[<-|[<-|[]]]];
    match goal with
    | |- context [Z.of_nat ?k] =>
        let z := eval vm_compute in (Z.of_nat k) in change (Z.of_nat k) with z
    end;
    split; try intros ?; lra.
Qed.

Lemma next_rotation_range (turn : R) (T : nat) (stored : option R) :
  0 <= turn < 360 -> In T [44; 22; 14]%nat ->
  -258 <= current_rotation stored <= 0 ->
  -258 <= next_rotation turn 10 T stored <= 0 /\
  (0 < turn -> next_rotation turn 10 T stored < 0).
Proof.
  intros Hturn HT Hcur.
  destruct (mesh_target_range turn T Hturn HT) as [Ht Hneg].
  rewrite next_rotation_real. split; [lra|]. intros Hpos.
  specialize (Hneg Hpos). lra.
Qed.

Lemma current_rotation_rest : -258 <= current_rotation (num := R) None <= 0.
Proof. rewrite current_rotation_real. lra. Qed.

Lemma start_bounded (t : R) (w : World R) :
  page_ok (dom w) -> rotations_bounded (start t w).
Proof.
  intros Hp. exists (next_handle (dom w)).
  split; [apply start_train_ok, Hp|].
  intros k Hk. rewrite start_unrotated by exact Hk.
  apply current_rotation_rest.
Qed.

Lemma reachable_bounded (w : World R) :
  reachable w -> world_ok w /\ rotations_bounded w.
Proof.
  induction 1 as [t|now w w' _ [Hok IH] Hv Hl|w _ [Hok IH]|t w _ [Hok IH]].
  - split; [apply start_ok, page_ok_initial|].
    apply start_bounded, page_ok_initial.
  - split; [exact (loop_ok now w w' Hok Hl)|].
    destruct IH as (n & Htr & Hb). exists n.
    pose proof Htr as (Hg & Hn4 & Hnext & Hp).
    destruct (running w) eqn:Hrun.
    + destruct (loop_running_stored now w n Hrun Htr)
        as (w1 & Hl1 & _ & Htr1 & Hgears).
      rewrite Hl1 in Hl. injection Hl as <-.
      split; [exact Htr1|].
      pose proof (minuteAngle_range now Hv) as Hturn.
      cbn [gears train_at] in Hgears.
      repeat (apply Forall_cons in Hgears as [?H Hgears]).
      cbn [shape shape_at group teeth Nat.add] in *.
      intros k Hk. cbn [In] in Hk.
      destruct Hk as [<-|[<-|[<-|[]]]]; cbn [Nat.add];
        match goal with
        | Hup : getAttribute_data_rot ?h (dom w1) = _
          |- context [getAttribute_data_rot ?h (dom w1)] =>
            rewrite Hup, current_rotation_real
        end.
      * apply next_rotation_range; [exact Hturn|cbn; tauto|].
        apply (Hb 2%nat). cbn; tauto.
      * apply next_rotation_range; [exact Hturn|cbn; tauto|].
        apply (Hb 5%nat). cbn; tauto.
      * apply next_rotation_range; [exact Hturn|cbn; tauto|].
        apply (Hb 8%nat). cbn; tauto.
    + destruct (loop_paused now w Hrun)
        as (w1 & Hl1 & _ & Hst & Hnx & Hiff & Hfr & _).
      rewrite Hl1 in Hl. injection Hl as <-.
      split.
      { split; [rewrite Hst; exact Hg|]. split; [exact Hn4|].
        split; [lia|]. intros j Hj. apply Hiff, Hp, Hj. }
      intros k Hk. unfold getAttribute_data_rot.
      rewrite Hfr; [apply (Hb k Hk)| |]; cbn [In] in Hk;
        unfold minuteGroup, hourGroup; lia.
  - split; [apply click_ok, Hok|].
    destruct IH as (n & Htr & Hb). exists n.
    pose proof Htr as (Hg & Hn4 & Hnext & Hp).
    split.
    { split; [exact Hg|]. split; [exact Hn4|]. split; [exact Hnext|].
      intros j Hj. unfold click, update. cbn [dom elems].
      rewrite lookup_alter_is_Some. apply Hp, Hj. }
    intros k Hk. unfold getAttribute_data_rot, click, update.
    cbn [dom elems].
    rewrite lookup_alter_ne by (unfold toggleBtn; cbn [In] in Hk; lia).
    apply (Hb k Hk).
  - split; [apply start_ok, Hok|]. apply start_bounded, Hok.
Qed.

End Smoothing.

Section SmoothingClaims.

Local Open Scope R_scope.

Lemma train_gear_cases (n : handle) (g : Gear R) :
  In g (gears (train_at n)) ->
  exists k, In k [2; 5; 8]%nat /\ group (shape g) = (k + n)%nat /\
            In (teeth (shape g)) [44; 22; 14]%nat.
Proof.
  cbn [gears train_at In]. intros [<-|[<-|[<-|[]]]];
    [exists 2%nat|exists 5%nat|exists 8%nat]; cbn; tauto.
Qed.

Lemma reachable_train (w : World R) (tr : Train R) :
  reachable w -> gearsObj (state w) = Some tr ->
  exists n, tr = train_at n /\ world_ok w /\ train_ok w n /\
    forall k, In k [2; 5; 8]%nat ->
      -258 <= current_rotation (getAttribute_data_rot (k + n) (dom w)) <= 0.
Proof.
  intros Hreach Htr.
  destruct (reachable_bounded w Hreach) as [Hok (n & Hn & Hb)].
  exists n. pose proof Hn as (Hg & _).
  rewrite Hg in Htr. apply (inj Some) in Htr. auto.
Qed.

(** C5, as the code has it, in exact arithmetic.  While the frames read
    the same pinion rotation, each frame multiplies a gear's distance
    [|currentRotation - target|] by exactly [0.86], so the distance strictly
    decreases as long as it is not zero and is [0.86 ^ n] times the initial
    one after [n] frames.  How many frames bring it below [0.01] depends on
    the initial distance: 40 frames are enough when it is at most 4 degrees,
    and 68 frames are enough in every state of the page, where it is at
    most 258 degrees. *)
Theorem smoothing_converges (w : World R) (now : Date) (tr : Train R)
    (g : Gear R) (n : nat) :
  reachable w -> running w = true -> valid_date now ->
  gearsObj (state w) = Some tr -> In g (gears tr) ->
  let target :=
    mesh_target (minuteAngle (getClockAngles now)) (teeth (shape g)) in
  let rotation (k : nat) :=
    current_rotation (stored_rotation g (frames (repeat now k) w)) in
  let err (k : nat) := Rabs (rotation k - target) in
  err (S n) = 86 / 100 * err n /\
  (0 < err n -> err (S n) < err n) /\
  err n = (86 / 100) ^ n * err 0%nat /\
  (err 0%nat <= 4 -> err 40%nat < 1 / 100) /\
  err 0%nat <= 258 /\ err 68%nat < 1 / 100.
Proof.
  intros Hreach Hrun Hv Htr Hin target rotation err.
  destruct (reachable_train w tr Hreach Htr) as (m & -> & Hok & Hm & Hb).
  destruct (train_gear_cases m g Hin) as (j & Hj & Hgrp & Hteeth).
  set (turn := minuteAngle (getClockAngles now)) in *.
  set (stored := getAttribute_data_rot (group (shape g)) (dom w)).
  assert (forall k, rotation k - target =
                    (86 / 100) ^ k * (current_rotation stored - target)) as Hrot.
  { intros k. subst rotation. cbv beta.
    destruct (running_frames_rotation now k w m Hok Hrun Hm)
      as (wk & Hf & _ & _ & _ & Hall).
    rewrite Hf. cbn [stored_rotation].
    rewrite List.Forall_forall in Hall. rewrite (Hall g Hin).
    apply rotation_after_error. }
  assert (forall k, err k = (86 / 100) ^ k * err 0%nat) as Herr.
  { intros k. subst err. cbv beta. rewrite !Hrot, Rabs_mult.
    rewrite (Rabs_right ((86 / 100) ^ k)) by (apply Rle_ge, pow_le; lra).
    cbn [pow]. rewrite Rmult_1_l. reflexivity. }
  assert (0 <= err 0%nat) as Hpos by apply Rabs_pos.
  assert (err 0%nat <= 258) as Hbound.
  { subst err. cbv beta. rewrite Hrot. cbn [pow]. rewrite Rmult_1_l.
    pose proof (Hb j Hj) as Hs. rewrite <- Hgrp in Hs. fold stored in Hs.
    destruct (mesh_target_range turn (teeth (shape g))
                (minuteAngle_range now Hv) Hteeth) as [Ht _].
    fold target in Ht. apply Rabs_le; lra. }
  split; [rewrite (Herr (S n)), (Herr n); cbn [pow]; lra|].
  split; [intros Hn; rewrite (Herr (S n)) in *; rewrite (Herr n) in *;
          cbn [pow]; lra|].
  split; [apply Herr|].
  split; [intros H4; rewrite (Herr 40%nat); cbn [pow]; lra|].
  split; [exact Hbound|].
  rewrite (Herr 68%nat). cbn [pow]. lra.
Qed.

(** C7, as the code has it.  Every visible gear is driven from the pinion
    alone: on a running frame with a nonzero pinion rotation the pinion turns
    in the positive sense and every gear's rotation is negative.  So each
    gear turns against the pinion, and any two gears turn in the same sense
    as each other. *)
Theorem gears_turn_against_pinion (w : World R) (now : Date) :
  reachable w -> running w = true -> valid_date now ->
  minuteAngle (getClockAngles now) <> 0 ->
  exists w' tr pinionRotation,
    loop now w = Scheduled w' /\ gearsObj (state w') = Some tr /\
    transform_of (group (shape (pinion tr))) (dom w') =
      Some (TranslateRotate (cx (pinion tr)) (cy (pinion tr)) pinionRotation) /\
    0 < pinionRotation /\
    (forall g1 g2, In g1 (gears tr) -> In g2 (gears tr) ->
       exists R1 R2,
         getAttribute_data_rot (group (shape g1)) (dom w') = Some R1 /\
         getAttribute_data_rot (group (shape g2)) (dom w') = Some R2 /\
         R1 < 0 /\ R2 < 0 /\ 0 < R1 * R2 /\ R1 * pinionRotation < 0).
Proof.
  intros Hreach Hrun Hv Hne.
  destruct (reachable_bounded w Hreach) as [Hok (m & Hm & Hb)].
  destruct (loop_running_pinion now w m Hrun Hm) as (w' & Hl & Hpin).
  destruct (loop_running_stored now w m Hrun Hm)
    as (w1 & Hl1 & _ & Htr' & Hgears).
  rewrite Hl in Hl1. injection Hl1 as <-. destruct Htr' as (Htr' & _).
  pose proof (minuteAngle_range now Hv) as Hturn.
  set (turn := minuteAngle (getClockAngles now)) in *.
  assert (0 < turn) as Hpos by lra.
  exists w', (train_at m), turn.
  split; [exact Hl|]. split; [exact Htr'|]. split; [exact Hpin|].
  split; [exact Hpos|].
  assert (forall g, In g (gears (train_at m)) ->
            exists r, getAttribute_data_rot (group (shape g)) (dom w') = Some r /\
                      r < 0) as Hneg.
  { intros g Hin. rewrite List.Forall_forall in Hgears.
    rewrite (Hgears g Hin). eexists. split; [reflexivity|].
    destruct (train_gear_cases m g Hin) as (j & Hj & Hgrp & Hteeth).
    apply next_rotation_range; [exact Hturn|exact Hteeth| |exact Hpos].
    rewrite Hgrp. apply (Hb j Hj). }
  intros g1 g2 H1 H2.
  destruct (Hneg g1 H1) as (R1 & E1 & N1).
  destruct (Hneg g2 H2) as (R2 & E2 & N2).
  exists R1, R2. repeat split; try assumption; nra.
Qed.

End SmoothingClaims.

(** ** The script's arithmetic at binary64 *)

Section Binary64.

(** The literals of the script, at binary64, are the doubles JavaScript reads
    them as. *)
Example float_literals :
  (decimal 45 2 : float) = 0x1.ccccccccccccdp-2%float /\
  (decimal 68 2 : float) = 0x1.5c28f5c28f5c3p-1%float /\
  (decimal 14 2 : float) = 0x1.1eb851eb851ecp-3%float /\
  (decimal 28 2 : float) = 0x1.1eb851eb851ecp-2%float /\
  (decimal 8 2 : float) = 0x1.47ae147ae147bp-4%float.
Proof. vm_compute. repeat split. Qed.

(** [toFixed(2)] rounds the exact value of the double: [1.005] is below
    the tie, [0.125] is a tie, and a negative number that rounds to zero
    keeps its sign. *)
Example float_toFixed2 :
  toFixed2 (decimal 1005 3 : float) = "1.00" /\
  toFixed2 (decimal 125 3 : float) = "0.13" /\
  toFixed2 (- decimal 1 3 : float)%js = "-0.00" /\
  toFixed2 (ofZ (-1234567) / ofZ 1000 : float)%js = "-1234.57".
Proof. vm_compute. repeat split. Qed.

(** From [10^21] on [toFixed(2)] is [String(x)]: the shortest digits that
    read back as the same double, in exponent form.  The largest double
    below [10^21] is still printed in full. *)
Example float_toFixed2_large :
  toFixed2 (ofZ (10 ^ 21) : float) = "1e+21" /\
  toFixed2 (ofZ (- 15 * 10 ^ 20) : float) = "-1.5e+21" /\
  toFixed2 (ofZ (2 ^ 70) : float) = "1.1805916207174113e+21" /\
  toFixed2 (ofZ (10 ^ 23) : float) = "1e+23" /\
  toFixed2 (ofZ (10 ^ 21 - 2 ^ 17) : float) = "999999999999999868928.00".
Proof. vm_compute. repeat split. Qed.

(** The radius of the center disk: [Math.max(8, Math.round(c.r * 0.28))]
    for the three rows of the table. *)
Example float_center_radius :
  map (fun r : Z => Math_max (ofZ 8) (Math_round (ofZ r * decimal 28 2)%js))
      [64; 34; 24]%Z = [18%float; 10%float; 8%float].
Proof. vm_compute. reflexivity. Qed.

(** At binary64, [x - 0] is [x], and [0 + y] is [y] with a negative zero
    turned into [+0]. *)
Lemma float_sub_zero (t : float) : PrimFloat.sub t PrimFloat.zero = t.
Proof.
  apply Prim2SF_inj. rewrite sub_spec.
  change (Prim2SF PrimFloat.zero) with (S754_zero false).
  destruct (Prim2SF t) as [[|]|[|]| |s m e]; reflexivity.
Qed.

Lemma float_zero_add (y : float) :
  PrimFloat.add PrimFloat.zero y = F64.reparse y.
Proof.
  apply Prim2SF_inj. rewrite add_spec. unfold F64.reparse, F64.is_zero.
  rewrite FloatAxioms.eqb_spec.
  change (Prim2SF PrimFloat.zero) with (S754_zero false).
  destruct (Prim2SF y) as [[|]|[|]| |[|] m e] eqn:E; cbn;
    try reflexivity; symmetry; exact E.
Qed.

(** The rotation a gear gets from rest, at binary64: [target * 0.14], with
    a negative zero turned into [+0]. *)
Lemma float_rotation_from_rest (target : float) :
  (ofZ 0 + (target - ofZ 0) * decimal 14 2)%js =
  F64.reparse (target * decimal 14 2)%js.
Proof.
  cbn [ofZ add sub mul float_num].
  change (F64.of_Z 0) with PrimFloat.zero.
  rewrite float_sub_zero. apply float_zero_add.
Qed.

(** A stored [NaN] and a stored zero of either sign read back as [0]. *)
Example float_stored_nan :
  falsy (reparse PrimFloat.nan) = true /\
  current_rotation (Some PrimFloat.nan) = PrimFloat.zero /\
  current_rotation (Some PrimFloat.neg_zero) = PrimFloat.zero /\
  current_rotation (None : option float) = PrimFloat.zero.
Proof. vm_compute. repeat split. Qed.

(** The remainder [getHours() % 12] is the hour modulo 12 for the hours a
    date has. *)
Lemma hours_rem_mod (date : Date) :
  valid_date date -> Z.rem (getHours date) 12 = (getHours date mod 12)%Z.
Proof. intros ([Hh _] & _). apply Z.rem_mod_nonneg; lia. Qed.

(** C2.  The three angles are the stated formulas of the fields of the date,
    with the hour taken modulo 12 by [%], in the arithmetic of the script as
    in exact arithmetic; at 10:15:30.000 the doubles computed are exactly
    [93] and [307.75] (and [180] for the second hand). *)
Theorem getClockAngles_formulas :
  (forall (num : Type) (N : JsNum num) (date : Date),
     let s := ofZ (getSeconds date) in
     let m := ofZ (getMinutes date) in
     let h := ofZ (Z.rem (getHours date) 12) in
     let ms := ofZ (getMilliseconds date) in
     secondAngle (getClockAngles date) = ((s + ms / ofZ 1000) * ofZ 6)%js /\
     minuteAngle (getClockAngles date) =
       ((m + s / ofZ 60 + ms / ofZ 60000) * ofZ 6)%js /\
     hourAngle (getClockAngles date) =
       ((h + m / ofZ 60 + s / ofZ 3600) * ofZ 30)%js) /\
  (forall date : Date,
     let s := IZR (getSeconds date) in
     let m := IZR (getMinutes date) in
     let h := IZR (Z.rem (getHours date) 12) in
     let ms := IZR (getMilliseconds date) in
     secondAngle (getClockAngles date) = ((s + ms / 1000) * 6)%R /\
     minuteAngle (getClockAngles date) = ((m + s / 60 + ms / 60000) * 6)%R /\
     hourAngle (getClockAngles date) = ((h + m / 60 + s / 3600) * 30)%R) /\
  minuteAngle (getClockAngles quarter_past) = 93%float /\
  hourAngle (getClockAngles quarter_past) = 307.75%float /\
  secondAngle (getClockAngles quarter_past) = 180%float.
Proof.
  split; [intros num N date; cbv zeta; repeat split|].
  split; [|vm_compute; repeat split].
  intros date s m h ms. subst s m h ms.
  cbn [getClockAngles secondAngle minuteAngle hourAngle
       ofZ add mul div real_num].
  repeat split.
Qed.

(** Counterexample to C5 as stated.  From a fresh build at 10:15:30.000 gear
    [g1] is still more than [0.01] away from its target after 40 frames, at
    binary64 and in exact arithmetic alike.  When gear [g3] has settled at
    10:59:59.999 and the clock then reads 11:00:00.000, it is still more than
    [0.01] away from its new target after 60 frames.  And at binary64 the
    distance stops decreasing before it reaches zero: at 10:15:30.000 frames
    300 and 301 store the same rotation of [g1], which is not the target. *)
Lemma forty_frames_fall_short :
  (let turn := minuteAngle (getClockAngles (num := float) quarter_past) in
   let target := (- turn * (ofZ 10 / ofZ 44))%js in
   let rotation (k : nat) :=
     current_rotation (rotation_after turn 10 44 k None) in
   PrimFloat.leb (decimal 1 2) (PrimFloat.abs (rotation 40 - target)%js) = true /\
   PrimFloat.eqb (rotation 301) (rotation 300) = true /\
   PrimFloat.eqb (rotation 300) target = false) /\
  (let settled :=
     rotation_after (minuteAngle (getClockAngles (num := float) hour_end))
       10 14 300 None in
   let turn := minuteAngle (getClockAngles (num := float) eleven_sharp) in
   let target := (- turn * (ofZ 10 / ofZ 14))%js in
   let rotation (k : nat) :=
     current_rotation (rotation_after turn 10 14 k settled) in
   PrimFloat.leb (decimal 1 2) (PrimFloat.abs (rotation 60 - target)%js) = true) /\
  (let turn := minuteAngle (getClockAngles (num := R) quarter_past) in
   let target := mesh_target turn 44%nat in
   let rotation (k : nat) :=
     current_rotation (rotation_after turn 10 44%nat k None) in
   1 / 100 <= Rabs (rotation 40%nat - target))%R.
Proof.
  split; [vm_compute; repeat split|]. split; [vm_compute; reflexivity|].
  cbv beta zeta. rewrite rotation_after_error, current_rotation_real.
  unfold mesh_target.
  cbn [getClockAngles minuteAngle quarter_past getMinutes getSeconds
       getMilliseconds ofZ add mul div real_num].
  change (Z.of_nat 44) with 44%Z.
  rewrite Rabs_mult, (Rabs_right ((86 / 100) ^ 40))
    by (apply Rle_ge, pow_le; lra).
  rewrite Rabs_right by lra. cbn [pow]. lra.
Qed.

(** Counterexample to C6 as stated.  With a tooth count of zero the ratio
    step divides by zero without any report: at 11:00:00.000 the first
    frame already stores [NaN], and at 10:15:30.000 the first frame stores
    [-Infinity] and the second [NaN]. *)
Lemma zero_teeth_rotation_nan :
  (let turn := minuteAngle (getClockAngles (num := float) eleven_sharp) in
   exists x, rotation_after turn 10 0 1 None = Some x /\
             PrimFloat.is_nan x = true) /\
  (let turn := minuteAngle (getClockAngles (num := float) quarter_past) in
   rotation_after turn 10 0 1 None = Some neg_infinity /\
   exists x, rotation_after turn 10 0 2 None = Some x /\
             PrimFloat.is_nan x = true).
Proof.
  split; [|split]; try (eexists; split); vm_compute; reflexivity.
Qed.

(** Counterexample to C7 as stated.  On the first frame after a build, at
    10:15:30.000, the pinion rotation is positive and the rotations of the
    gears [g1] and [g2] are both negative: two gears driven from the same
    pinion have the same sign, at binary64 and in exact arithmetic alike. *)
Lemma meshed_gears_same_sign :
  (let turn := minuteAngle (getClockAngles (num := float) quarter_past) in
   let R1 := next_rotation turn 10 44 None in
   let R2 := next_rotation turn 10 22 None in
   PrimFloat.ltb 0 turn = true /\
   PrimFloat.ltb R1 0 = true /\ PrimFloat.ltb R2 0 = true) /\
  (let turn := minuteAngle (getClockAngles (num := R) quarter_past) in
   let R1 := next_rotation turn 10 44%nat None in
   let R2 := next_rotation turn 10 22%nat None in
   0 < turn /\ R1 < 0 /\ R2 < 0)%R.
Proof.
  split; [vm_compute; repeat split|].
  cbv beta zeta. rewrite !next_rotation_real, current_rotation_real.
  unfold mesh_target.
  cbn [getClockAngles minuteAngle quarter_past getMinutes getSeconds
       getMilliseconds ofZ add mul div real_num].
  change (Z.of_nat 44) with 44%Z. change (Z.of_nat 22) with 22%Z.
  repeat split; lra.
Qed.

End Binary64.

(** The page at binary64, for any implementation of [Math.cos] and
    [Math.sin]: the first frame after loading, read at 10:15:30.000, stores
    a negative rotation in each of the three gears. *)

Section Binary64Page.

Context `{!JsTrig float}.

Lemma float_first_frame :
  exists w',
    loop quarter_past (start PrimFloat.zero initial) = Scheduled w' /\
    Forall (fun g =>
              exists rot,
                getAttribute_data_rot (group (shape g)) (dom w') = Some rot /\
                rot = next_rotation 93%float 10 (teeth (shape g)) None /\
                PrimFloat.ltb rot 0 = true)
           (gears (train_at 4)).
Proof.
  pose proof (start_train_ok PrimFloat.zero initial page_ok_initial) as Htr.
  destruct (loop_running_stored quarter_past
              (start PrimFloat.zero initial) _ eq_refl Htr)
    as (w' & Hl & _ & _ & Hgears).
  exists w'. split; [exact Hl|].
  pose proof (start_unrotated PrimFloat.zero initial) as Hrest.
  pose proof (Hrest 2 ltac:(cbn; tauto)) as U2.
  pose proof (Hrest 5 ltac:(cbn; tauto)) as U5.
  pose proof (Hrest 8 ltac:(cbn; tauto)) as U8.
  cbn [gears train_at] in *.
  repeat (apply Forall_cons in Hgears as [?H Hgears]).
  cbn [shape shape_at group teeth Nat.add next_handle dom initial
       initial_dom] in *.
  repeat first [apply List.Forall_cons|apply List.Forall_nil];
    cbn [shape shape_at group teeth Nat.add];
    eexists;
    (split; [eassumption|]);
    rewrite ?U2, ?U5, ?U8;
    split; vm_compute; reflexivity.
Qed.

End Binary64Page.

(** ** More on the store: element creation, frames, clicks *)

Section StoreFacts.

Context {num : Type} `{!JsNum num} `{!JsTrig num}.

Lemma bind_store {A B : Type} (m : dom_op num A) (f : A -> dom_op num B)
    (d : DOM num) :
  (m ≫= f) d = f (fst (m d)) (snd (m d)).
Proof. unfold mbind, dom_bind. destruct (m d). reflexivity. Qed.

Lemma mapM_cons_store {A B : Type} (f : A -> dom_op num B) (a : A)
    (l : list A) (d : DOM num) :
  snd (mapM f (a :: l) d) = snd (mapM f l (snd (f a d))).
Proof.
  cbn [mapM]. unfold mbind, dom_bind, mret, dom_ret.
  destruct (f a d) as [y d1]. cbn [snd].
  destruct (mapM f l d1) as [k d2]. reflexivity.
Qed.

Lemma setAttributes_run (h : handle) (attrs : list (attribute num))
    (d : DOM num) :
  snd (mapM (setAttribute h) attrs d) =
  update h (fun e => fold_left (fun e a => set_attr a e) attrs e) d.
Proof.
  revert d. induction attrs as [|a attrs IH]; intros d.
  - destruct d as [n m]. unfold update. cbn [mapM snd next_handle elems fold_left].
    unfold mret, dom_ret. cbn [snd]. f_equal. symmetry. apply alter_id. auto.
  - rewrite mapM_cons_store. unfold setAttribute at 2, modify. cbn [snd].
    rewrite IH. unfold update. cbn [next_handle elems]. f_equal.
    rewrite alter_alter_eq. reflexivity.
Qed.

(** X1.  [$svg(tag, attrs)] creates exactly one element, under the next free
    handle, and nothing else changes: the new element is a blank [tag] with
    the attributes of [attrs] assigned in order, so a later assignment of
    an attribute overrides an earlier one. *)
Theorem svg_creates (t : string) (attrs : list (attribute num)) (d : DOM num) :
  fst (svg t attrs d) = next_handle d /\
  next_handle (snd (svg t attrs d)) = S (next_handle d) /\
  elems (snd (svg t attrs d)) =
    <[next_handle d := fold_left (fun e a => set_attr a e) attrs (blank t)]>
      (elems d).
Proof.
  unfold svg, mbind, dom_bind, createElementNS.
  pose proof (setAttributes_run (next_handle d) attrs
                {| next_handle := S (next_handle d);
                   elems := <[next_handle d := blank t]> (elems d) |}) as Hrun.
  destruct (mapM (setAttribute (next_handle d)) attrs _) as [k d2].
  unfold mret, dom_ret. cbn [fst snd] in *. subst d2.
  unfold update. cbn [next_handle elems].
  split; [reflexivity|]. split; [reflexivity|].
  apply alter_insert_eq.
Qed.

(** X2.  [makeGearPath] creates three elements and touches no other: the
    outline path, the center disk (a circle at the origin with the given
    radius) and the group, whose children are the path and then the disk.
    The object it returns refers to these three elements. *)
Theorem makeGearPath_elements (t : nat) (r td cr : num) (d : DOM num) :
  let n := next_handle d in
  let made := makeGearPath t r td cr d in
  let m := elems (snd made) in
  path (fst made) = n /\ center (fst made) = S n /\ group (fst made) = S (S n) /\
  next_handle (snd made) = 3 + n /\
  m !! n = Some (set_attr (A_class "gear-path")
                   (set_attr (A_d (gear_pathD (gear_d t r td))) (blank "path"))) /\
  m !! S n = Some (set_attr (A_fill "rgba(255,255,255,0.02)")
                     (set_attr (A_r cr)
                        (set_attr (A_cy (ofZ 0))
                           (set_attr (A_cx (ofZ 0)) (blank "circle"))))) /\
  m !! S (S n) = Some (set_children [n; S n] (blank "g")) /\
  (forall h, h < n -> m !! h = elems d !! h).
Proof.
  destruct d as [n m]. run_dom. repeat apply conj; try reflexivity.
  - store_lookup. reflexivity.
  - store_lookup. reflexivity.
  - store_lookup. reflexivity.
  - intros h Hh. store_lookup. reflexivity.
Qed.

(** X3.  A tooth count of zero raises no error: the loop runs no pass, the
    array [d] stays empty and the path text is built from [d[0]], which is
    [undefined]. *)
Theorem makeGearPath_no_teeth (r td cr : num) (d : DOM num) :
  let made := makeGearPath 0 r td cr d in
  gear_d 0 r td = [] /\
  elems (snd made) !! path (fst made) ≫= attr_d = Some "M undefined L  Z" /\
  teeth (fst made) = 0.
Proof.
  cbv zeta.
  destruct (makeGearPath_path 0 r td cr d) as (Hd & Ht & _).
  split; [reflexivity|]. split; [rewrite Hd; reflexivity|exact Ht].
Qed.

Lemma keys_alter (f : element num -> element num) (h : handle)
    (m : gmap handle (element num)) :
  keys (alter f h m) = keys m.
Proof. apply dom_alter_L. Qed.

Lemma keys_insert (h : handle) (e : element num) (m : gmap handle (element num)) :
  keys (<[h := e]> m) = {[h]} ∪ keys m.
Proof. apply dom_insert_L. Qed.

Lemma loop_gears_store (turn : num) (P : nat) (gs : list (Gear num))
    (d : DOM num) :
  next_handle (snd (mapM (loop_gear turn P) gs d)) = next_handle d /\
  keys (elems (snd (mapM (loop_gear turn P) gs d))) = keys (elems d).
Proof.
  revert d. induction gs as [|g gs IH]; intros d; [split; reflexivity|].
  rewrite mapM_cons_store.
  destruct (IH (snd (loop_gear turn P g d))) as [I1 I2].
  rewrite I1, I2.
  unfold loop_gear, mbind, dom_bind, setAttribute, modify, update.
  cbn [snd next_handle elems]. rewrite !keys_alter. split; reflexivity.
Qed.

(** X4.  Frames and clicks never create or remove an element: in any state
    whatever, the store holds the same handles after [loop] (whether it
    ends normally or throws) and after a click, and the next free handle is
    the same.  A build adds exactly twelve elements, under the next twelve
    handles, and removes none. *)
Theorem store_accounting (now : Date) (t : num) (w : World num) :
  (next_handle (dom (world_of (loop now w))) = next_handle (dom w) /\
   keys (elems (dom (world_of (loop now w)))) = keys (elems (dom w))) /\
  (next_handle (dom (click w)) = next_handle (dom w) /\
   keys (elems (dom (click w))) = keys (elems (dom w))) /\
  (next_handle (dom (start t w)) = 12 + next_handle (dom w) /\
   keys (elems (dom (start t w))) =
     keys (elems (dom w)) ∪ list_to_set (seq (next_handle (dom w)) 12)).
Proof.
  split; [|split].
  - unfold loop.
    set (d1 := snd ((setAttribute minuteGroup _ ≫= _) (dom w))).
    assert (next_handle d1 = next_handle (dom w) /\
            keys (elems d1) = keys (elems (dom w))) as [H1 H2].
    { subst d1. rewrite bind_store.
      unfold setAttribute, modify, update.
      cbn [fst snd next_handle elems]. rewrite !keys_alter. split; reflexivity. }
    destruct (running w); [|cbn [world_of dom]; auto].
    destruct (gearsObj (state w)) as [tr|]; [|cbn [world_of dom]; auto].
    cbn [world_of dom]. rewrite bind_store.
    destruct (loop_gears_store (minuteAngle (getClockAngles now))
                (pinion_teeth (pinion tr)) (gears tr)
                (snd (setAttribute (group (shape (pinion tr)))
                        (A_transform
                           (TranslateRotate (cx (pinion tr)) (cy (pinion tr))
                              (minuteAngle (getClockAngles now)))) d1)))
      as [G1 G2].
    rewrite G1, G2. unfold setAttribute, modify, update.
    cbn [snd next_handle elems]. rewrite keys_alter. auto.
  - unfold click, update. cbn [dom next_handle elems].
    rewrite keys_alter. split; reflexivity.
  - unfold start. cbn [dom]. split; [apply buildGears_next|].
    destruct (dom w) as [n m]. run_dom.
    repeat first [rewrite keys_alter | rewrite keys_insert]. cbn [seq].
    rewrite !list_to_set_cons, list_to_set_nil.
    apply set_eq. intros x.
    rewrite !elem_of_union, !elem_of_singleton, elem_of_empty. tauto.
Qed.

End StoreFacts.

(** ** The path text *)

Section PathText.

Context {num : Type} `{!JsNum num} `{!JsTrig num}.

(** X5.  With at least one tooth the path text is the closed polyline
    through all the points of [d] in order: ["M "], the points separated by
    [" L "], then [" Z"].  Nothing is dropped or repeated, and the closing
    segment back to the first point is left to [Z]. *)
Theorem gear_path_polyline (toothCount : nat) (r toothDepth : num) :
  1 <= toothCount ->
  gear_pathD (gear_d toothCount r toothDepth) =
  ("M " ++ String.concat " L " (gear_d toothCount r toothDepth) ++ " Z")%string.
Proof.
  intros Ht. pose proof (gear_d_length toothCount r toothDepth) as Hlen.
  destruct (gear_d toothCount r toothDepth) as [|a [|b l]];
    cbn [length] in Hlen; try lia.
  unfold gear_pathD. cbn [nth tl String.concat].
  rewrite !string_app_assoc. reflexivity.
Qed.

End PathText.

(** ** More on the page: clicks, frames, what the groups show *)

Section PageFacts.

Context {num : Type} `{!JsNum num} `{!JsTrig num}.

Lemma train_ok_transfer (w w' : World num) (n : handle) :
  state w' = state w -> next_handle (dom w') = next_handle (dom w) ->
  (forall h, is_Some (elems (dom w') !! h) <-> is_Some (elems (dom w) !! h)) ->
  train_ok w n -> train_ok w' n.
Proof.
  intros Hst Hnx Hiff (Hg & Hn4 & Hnext & Hp).
  split; [rewrite Hst; exact Hg|]. split; [exact Hn4|]. split; [lia|].
  intros k Hk. apply Hiff, Hp, Hk.
Qed.

Lemma train_group_cases (n : handle) (g : Gear num) :
  In g (gears (train_at n)) ->
  exists k, In k [2; 5; 8] /\ group (shape g) = k + n.
Proof.
  cbn [gears train_at In]. intros [<-|[<-|[<-|[]]]];
    [exists 2|exists 5|exists 8]; cbn; auto.
Qed.

(** X6.  The toggle: a click changes the text of the button and nothing else
    in the store, the text it writes names the action of the next click
    ("Pause" while running, "Play" while paused), and two further clicks
    bring the page back to exactly the same state. *)
Theorem click_round_trip (w : World num) :
  (forall h, h <> toggleBtn ->
             elems (dom (click w)) !! h = elems (dom w) !! h) /\
  textContent <$> elems (dom (click w)) !! toggleBtn =
    (fun _ => toggle_label (running (click w))) <$> elems (dom w) !! toggleBtn /\
  state (click w) = state w /\
  click (click (click w)) = click w.
Proof.
  destruct w as [[n m] run st]. unfold click, update.
  cbn [dom running state next_handle elems].
  split; [|split; [|split]].
  - intros h Hh. rewrite lookup_alter_ne by auto. reflexivity.
  - rewrite lookup_alter_eq. destruct (m !! toggleBtn); reflexivity.
  - reflexivity.
  - rewrite !alter_alter_eq, !negb_involutive. reflexivity.
Qed.

(** Frames keep the invariant of the page, whatever time they read. *)
Lemma frames_scheduled (nows : list Date) (w : World num) :
  world_ok w ->
  exists w', frames nows w = Scheduled w' /\ world_ok w' /\
             running w' = running w /\ state w' = state w.
Proof.
  revert w. induction nows as [|now nows IH]; intros w Hok.
  - exists w. auto.
  - assert (exists w1, loop now w = Scheduled w1 /\ running w1 = running w /\
                       state w1 = state w) as (w1 & Hl & Hr1 & Hs1).
    { destruct Hok as [_ [n (Hg & Hn4 & _)]].
      destruct (running w) eqn:Hrun.
      - destruct (loop_running now w n Hrun Hg Hn4) as (w1 & Hl & ? & ? & _).
        exists w1. auto.
      - destruct (loop_paused now w Hrun) as (w1 & Hl & ? & ? & _).
        exists w1. auto. }
    destruct (IH w1 (loop_ok now w w1 Hok Hl)) as (w' & Hf & Hok' & Hr' & Hs').
    exists w'. rewrite (frames_cons now nows w w1 Hl).
    split; [exact Hf|]. split; [exact Hok'|]. split; congruence.
Qed.

Lemma loop_hands (now : Date) (w w' : World num) :
  world_ok w -> loop now w = Scheduled w' ->
  transform_of minuteGroup (dom w') =
    Some (Rotate (minuteAngle (getClockAngles now))) /\
  transform_of hourGroup (dom w') =
    Some (Rotate (hourAngle (getClockAngles now))).
Proof.
  intros [[_ Hfix] [n (Hg & Hn4 & _)]] Hl.
  destruct (Hfix minuteGroup) as [e1 He1]; [unfold minuteGroup; lia|].
  destruct (Hfix hourGroup) as [e2 He2]; [unfold hourGroup; lia|].
  unfold transform_of.
  destruct (running w) eqn:Hrun.
  - destruct (loop_running now w n Hrun Hg Hn4)
      as (w1 & Hl1 & _ & _ & _ & _ & _ & Hm & Hh & _).
    rewrite Hl1 in Hl. injection Hl as <-.
    rewrite Hm, Hh, He1, He2. split; reflexivity.
  - destruct (loop_paused now w Hrun)
      as (w1 & Hl1 & _ & _ & _ & _ & _ & Hm & Hh).
    rewrite Hl1 in Hl. injection Hl as <-.
    rewrite Hm, Hh, He1, He2. split; reflexivity.
Qed.

(** X7.  The animation never stops by itself.  From any state the page
    reaches, running or paused, every sequence of frames completes and
    leaves the next frame scheduled; the frames change neither [running]
    nor the animation [state] (in particular [lastT] is never updated),
    and the hands show the time the last frame read.  A frame on the page
    as it is before [start] is different: it sets the hands and then
    throws on the missing train. *)
Theorem frames_never_throw (w : World num) (nows : list Date) (now : Date) :
  reachable w ->
  (exists w',
     frames (nows ++ [now]) w = Scheduled w' /\
     running w' = running w /\ state w' = state w /\
     transform_of minuteGroup (dom w') =
       Some (Rotate (minuteAngle (getClockAngles now))) /\
     transform_of hourGroup (dom w') =
       Some (Rotate (hourAngle (getClockAngles now)))) /\
  (exists w0,
     loop now initial = TypeError w0 /\
     transform_of minuteGroup (dom w0) =
       Some (Rotate (minuteAngle (getClockAngles now))) /\
     transform_of hourGroup (dom w0) =
       Some (Rotate (hourAngle (getClockAngles now)))).
Proof.
  intros Hreach. split.
  - pose proof (reachable_ok w Hreach) as Hok.
    destruct (frames_scheduled nows w Hok) as (w1 & Hf1 & Hok1 & Hr1 & Hs1).
    destruct (frames_scheduled [now] w1 Hok1) as (w' & Hf & _ & Hr' & Hs').
    assert (loop now w1 = Scheduled w') as Hl by exact Hf.
    exists w'. rewrite (frames_snoc now nows w w1 Hf1).
    split; [exact Hl|]. split; [congruence|]. split; [congruence|].
    exact (loop_hands now w1 w' Hok1 Hl).
  - eexists. split; [reflexivity|].
    unfold transform_of, initial, initial_dom. run_dom.
    split; store_lookup; reflexivity.
Qed.

(** *** What the groups show *)

Lemma start_shows (t : num) (w : World num) :
  shows_stored (dom (start t w)) (train_at (next_handle (dom w))).
Proof.
  unfold shows_stored, start, transform_of, getAttribute_data_rot. cbn [dom].
  pose proof (buildGears_groups (dom w)) as Hg. cbv zeta in Hg.
  destruct Hg as (H1 & H2 & H3 & H4).
  cbn [pinion gears train_at]. cbn [Nat.add] in H1, H2, H3, H4.
  split.
  - repeat first [apply List.Forall_cons|apply List.Forall_nil];
      cbn [shape shape_at group cx cy Nat.add];
      first [rewrite H1|rewrite H2|rewrite H3]; reflexivity.
  - cbn [shape shape_at group Nat.add]. rewrite H4. reflexivity.
Qed.

Lemma click_shows (w : World num) (n : handle) :
  train_ok w n -> shows_stored (dom w) (train_at n) ->
  train_ok (click w) n /\ shows_stored (dom (click w)) (train_at n).
Proof.
  intros Htr [Hg Hp]. split.
  - apply (train_ok_transfer w); auto.
    intros h. unfold click, update. cbn [dom elems].
    rewrite lookup_alter_is_Some. reflexivity.
  - destruct Htr as (_ & Hn4 & _).
    assert (forall h, 4 <= h ->
              elems (dom (click w)) !! h = elems (dom w) !! h) as Hsame.
    { intros h Hh. unfold click, update. cbn [dom elems].
      rewrite lookup_alter_ne by (unfold toggleBtn; lia). reflexivity. }
    unfold shows_stored, transform_of, getAttribute_data_rot in *. split.
    + apply List.Forall_forall. intros g Hin.
      rewrite List.Forall_forall in Hg. specialize (Hg g Hin).
      destruct (train_group_cases n g Hin) as (k & Hk & Hgr).
      rewrite Hsame by (rewrite Hgr; cbn [In] in Hk; lia). exact Hg.
    + cbn [pinion train_at shape shape_at group] in *.
      rewrite Hsame by lia. exact Hp.
Qed.

Lemma loop_shows (now : Date) (w w' : World num) (n : handle) :
  train_ok w n -> shows_stored (dom w) (train_at n) ->
  loop now w = Scheduled w' ->
  train_ok w' n /\ shows_stored (dom w') (train_at n).
Proof.
  intros Htr [Hg Hp] Hl.
  pose proof (train_groups_present w n Htr) as Hpres.
  apply Forall_cons in Hpres as [[ep Hep] Hpres].
  pose proof Htr as (Hgo & Hn4 & _).
  destruct (running w) eqn:Hrun.
  - destruct (loop_running now w n Hrun Hgo Hn4)
      as (w1 & Hl1 & _ & Hst & Hnx & Hiff & _ & _ & _ & Hpin & Hgears).
    rewrite Hl1 in Hl. injection Hl as <-.
    split; [apply (train_ok_transfer w); auto|].
    unfold shows_stored, transform_of, getAttribute_data_rot in *. split.
    + pose proof (conj Hgears Hpres) as Hall. rewrite <- Forall_and in Hall.
      eapply Forall_impl; [exact Hall|].
      intros g (H2 & [e He]). cbv beta zeta in H2.
      rewrite H2, He. reflexivity.
    + cbn [pinion train_at shape shape_at group Nat.add] in *.
      rewrite Hpin, Hep. rewrite Hep in Hp. exact Hp.
  - destruct (loop_paused now w Hrun)
      as (w1 & Hl1 & _ & Hst & Hnx & Hiff & Hsame & _).
    rewrite Hl1 in Hl. injection Hl as <-.
    split; [apply (train_ok_transfer w); auto|].
    unfold shows_stored, transform_of, getAttribute_data_rot in *. split.
    + apply List.Forall_forall. intros g Hin.
      rewrite List.Forall_forall in Hg. specialize (Hg g Hin).
      destruct (train_group_cases n g Hin) as (k & Hk & Hgr).
      rewrite Hsame
        by (rewrite Hgr; unfold minuteGroup, hourGroup; cbn [In] in Hk; lia).
      exact Hg.
    + cbn [pinion train_at shape shape_at group] in *.
      rewrite Hsame by (unfold minuteGroup, hourGroup; lia). exact Hp.
Qed.

Lemma reachable_shows (w : World num) :
  reachable w -> exists n, train_ok w n /\ shows_stored (dom w) (train_at n).
Proof.
  induction 1 as [t|now w w' Hr IH _ Hl|w Hr IH|t w Hr IH].
  - eexists. split; [apply start_train_ok, page_ok_initial|apply start_shows].
  - destruct IH as (n & Htr & Hs). exists n. exact (loop_shows now w w' n Htr Hs Hl).
  - destruct IH as (n & Htr & Hs). exists n. exact (click_shows w n Htr Hs).
  - destruct (reachable_ok w Hr) as [Hp _].
    eexists. split; [apply start_train_ok, Hp|apply start_shows].
Qed.

(** X8.  What is displayed is what is stored: in every state the page
    reaches, the [transform] of each gear's group is the translation to the
    gear's center followed by the rotation held in the group's [data-rot],
    or the bare translation while no rotation is stored; the pinion never
    gets a [data-rot].  So the value a frame reads back as the current
    rotation is the rotation on screen. *)
Theorem displayed_is_stored (w : World num) :
  reachable w ->
  exists tr, gearsObj (state w) = Some tr /\ shows_stored (dom w) tr.
Proof.
  intros Hreach. destruct (reachable_shows w Hreach) as (n & Htr & Hs).
  exists (train_at n). split; [apply Htr|exact Hs].
Qed.

End PageFacts.

(** ** More on the outline, the clock and the smoothing, in exact arithmetic *)

Section OutlineFacts.

Local Open Scope R_scope.

Lemma gear_radius_period {num : Type} `{!JsNum num}
    (inner outer td : num) (i : nat) :
  gear_radius inner outer td (i + 4) = gear_radius inner outer td i.
Proof.
  unfold gear_radius.
  replace ((i + 4) mod 4)%nat with (i mod 4)%nat; [reflexivity|].
  symmetry. exact (Nat.Div0.mod_add i 1 4).
Qed.


(** X9.  The outline has the symmetry of the gear: four steps further along
    the path is the same vertex turned by one tooth, [2 pi / teeth], about
    the center. *)
Theorem gear_outline_symmetric (toothCount : nat) (r toothDepth : R) (i : nat) :
  (i + 4 < toothCount * 4)%nat ->
  gear_vertices toothCount r toothDepth !! (i + 4)%nat =
  turned (2 * PI / INR toothCount) <$> gear_vertices toothCount r toothDepth !! i.
Proof.
  intros Hi.
  rewrite !gear_vertices_lookup by lia. cbn [fmap option_fmap option_map].
  f_equal. unfold gear_vertex, turned. cbn [fst snd].
  rewrite gear_radius_period.
  rewrite !gear_theta_real by lia.
  cbn [Math_cos Math_sin real_trig mul real_num].
  assert (0 < INR toothCount) as Ht by (apply lt_0_INR; lia).
  replace (2 * PI * INR (i + 4) / (4 * INR toothCount))
    with (2 * PI * INR i / (4 * INR toothCount) + 2 * PI / INR toothCount)
    by (rewrite plus_INR; cbn [INR]; field; lra).
  rewrite cos_plus, sin_plus. f_equal; ring.
Qed.









End OutlineFacts.

Section ClockFacts.

Local Open Scope R_scope.

Lemma hours_rem_range (now : Date) :
  valid_date now -> (0 <= Z.rem (getHours now) 12 <= 11)%Z.
Proof.
  intros ([Hh0 Hh1] & _).
  rewrite Z.rem_mod_nonneg by lia.
  pose proof (Z.mod_pos_bound (getHours now) 12 ltac:(lia)). lia.
Qed.

(** X11.  For every reading of the clock the three angles lie in
    [[0, 360)]: no hand is ever turned by a full revolution or more, nor
    backwards. *)
Theorem clock_angles_range (now : Date) :
  valid_date now ->
  0 <= secondAngle (getClockAngles now) < 360 /\
  0 <= minuteAngle (getClockAngles now) < 360 /\
  0 <= hourAngle (getClockAngles now) < 360.
Proof.
  intros Hv. pose proof (hours_rem_range now Hv) as [Hh0 Hh1].
  destruct Hv as (_ & [Hm0 Hm1] & [Hs0 Hs1] & [Hl0 Hl1]).
  cbn [getClockAngles secondAngle minuteAngle hourAngle ofZ add mul div real_num].
  apply IZR_le in Hm0, Hs0, Hl0, Hh0, Hh1.
  assert (IZR (getMinutes now) <= 59) by (apply IZR_le; lia).
  assert (IZR (getSeconds now) <= 59) by (apply IZR_le; lia).
  assert (IZR (getMilliseconds now) <= 999) by (apply IZR_le; lia).
  repeat split; lra.
Qed.

(** X12.  The minute hand, and with it the pinion, follows the time within
    the hour linearly: its angle is the number of milliseconds since the
    hour began divided by 10000.  So a later reading within the hour gives a
    strictly larger angle, and two readings give the same angle only at the
    same millisecond of the hour. *)
Theorem minuteAngle_linear (d d' : Date) :
  minuteAngle (getClockAngles d) = IZR (msec_in_hour d) / 10000 /\
  ((msec_in_hour d < msec_in_hour d')%Z <->
   minuteAngle (getClockAngles d) < minuteAngle (getClockAngles d')) /\
  (msec_in_hour d = msec_in_hour d' <->
   minuteAngle (getClockAngles d) = minuteAngle (getClockAngles d')).
Proof.
  assert (forall x, minuteAngle (getClockAngles x) = IZR (msec_in_hour x) / 10000)
    as Hlin.
  { intros x. unfold msec_in_hour.
    cbn [getClockAngles minuteAngle ofZ add mul div real_num].
    rewrite !plus_IZR, !mult_IZR. field. }
  split; [apply Hlin|]. rewrite !Hlin. split; split.
  - intros H. apply IZR_lt in H. lra.
  - intros H. apply lt_IZR. lra.
  - intros ->. reflexivity.
  - intros H. apply eq_IZR. lra.
Qed.

(** X13.  How the hands are coupled.  The minute hand carries one sixtieth
    of the second angle on top of six degrees per minute.  The hour hand
    stands at thirty degrees per hour plus one twelfth of the minute angle,
    except that it ignores the milliseconds: it lags behind that position
    by [ms / 120000] degrees, less than [1 / 120] of a degree. *)
Theorem hands_coupled (now : Date) :
  valid_date now ->
  let a := getClockAngles now in
  minuteAngle a = 6 * IZR (getMinutes now) + secondAngle a / 60 /\
  hourAngle a = 30 * IZR (Z.rem (getHours now) 12) + minuteAngle a / 12
                - IZR (getMilliseconds now) / 120000 /\
  0 <= 30 * IZR (Z.rem (getHours now) 12) + minuteAngle a / 12 - hourAngle a
    < 1 / 120.
Proof.
  intros (_ & _ & _ & [Hl0 Hl1]). cbv zeta.
  cbn [getClockAngles secondAngle minuteAngle hourAngle ofZ add mul div real_num].
  apply IZR_le in Hl0.
  assert (IZR (getMilliseconds now) <= 999) by (apply IZR_le; lia).
  repeat split; lra.
Qed.

End ClockFacts.

Section ClockPeriod.

Context {num : Type} `{!JsNum num}.

(** X14.  The face is a twelve-hour one, in any arithmetic: a reading of the
    clock twelve hours later gives the same three angles. *)
Theorem clock_twelve_hours (now : Date) :
  (0 <= getHours now)%Z ->
  getClockAngles
    {| getHours := getHours now + 12; getMinutes := getMinutes now;
       getSeconds := getSeconds now;
       getMilliseconds := getMilliseconds now |} =
  getClockAngles (num := num) now.
Proof.
  intros Hh. unfold getClockAngles.
  cbn [getHours getMinutes getSeconds getMilliseconds].
  replace (Z.rem (getHours now + 12) 12) with (Z.rem (getHours now) 12);
    [reflexivity|].
  rewrite !Z.rem_mod_nonneg by lia.
  symmetry. exact (Z_mod_plus_full (getHours now) 1 12).
Qed.

End ClockPeriod.

Section SmoothingFacts.

Local Open Scope R_scope.

Lemma full_turn_target_range (turn : R) (T : nat) :
  (0 < T)%nat -> 0 <= turn < 360 ->
  - full_turn_target T < mesh_target turn T <= 0.
Proof.
  intros HT [H0 H1]. unfold mesh_target, full_turn_target.
  assert (0 < IZR (Z.of_nat T)) as Hpos by (apply IZR_lt; lia).
  assert (0 < / IZR (Z.of_nat T)) as Hinv by (apply Rinv_0_lt_compat, Hpos).
  unfold Rdiv. split; nra.
Qed.

Lemma next_rotation_within_turn (turn : R) (T : nat) (stored : option R) :
  (0 < T)%nat -> 0 <= turn < 360 ->
  - full_turn_target T < current_rotation stored <= 0 ->
  - full_turn_target T < next_rotation turn 10 T stored <= 0.
Proof.
  intros HT Hturn Hcur.
  pose proof (full_turn_target_range turn T HT Hturn).
  rewrite next_rotation_real. lra.
Qed.

Lemma train_teeth_positive (n : handle) (g : Gear R) :
  In g (gears (train_at n)) -> (0 < teeth (shape g))%nat.
Proof.
  cbn [gears train_at In]. intros [<-|[<-|[<-|[]]]]; cbn; lia.
Qed.

Lemma reachable_within_turn (w : World R) :
  reachable w ->
  exists n,
    train_ok w n /\
    Forall (fun g =>
              - full_turn_target (teeth (shape g)) <
              current_rotation (getAttribute_data_rot (group (shape g)) (dom w))
              <= 0)
           (gears (train_at n)).
Proof.
  assert (forall t (w0 : World R),
            Forall (fun g =>
              - full_turn_target (teeth (shape g)) <
              current_rotation
                (getAttribute_data_rot (group (shape g)) (dom (start t w0))) <= 0)
              (gears (train_at (next_handle (dom w0))))) as Hstart.
  { intros t w0. apply List.Forall_forall. intros g Hin.
    pose proof (train_teeth_positive _ g Hin) as HT.
    destruct (train_group_cases _ g Hin) as (k & Hk & ->).
    rewrite start_unrotated by exact Hk. rewrite current_rotation_real.
    unfold full_turn_target.
    assert (0 < IZR (Z.of_nat (teeth (shape g)))) by (apply IZR_lt; lia).
    assert (0 < 3600 / IZR (Z.of_nat (teeth (shape g))))
      by (apply Rdiv_lt_0_compat; lra).
    lra. }
  induction 1 as [t|now w w' Hr IH Hv Hl|w Hr IH|t w Hr IH].
  - eexists. split; [apply start_train_ok, page_ok_initial|apply Hstart].
  - destruct IH as (n & Htr & Hb). exists n.
    destruct (running w) eqn:Hrun.
    + destruct (loop_running_stored now w n Hrun Htr)
        as (w1 & Hl1 & _ & Htr1 & Hgears).
      rewrite Hl1 in Hl. injection Hl as <-.
      split; [exact Htr1|].
      pose proof (minuteAngle_range now Hv) as Hturn.
      apply List.Forall_forall. intros g Hin.
      rewrite List.Forall_forall in Hgears, Hb.
      rewrite (Hgears g Hin), current_rotation_real.
      apply next_rotation_within_turn;
        [exact (train_teeth_positive n g Hin)|exact Hturn|exact (Hb g Hin)].
    + pose proof Htr as (_ & Hn4 & _).
      destruct (loop_paused now w Hrun)
        as (w1 & Hl1 & _ & Hst & Hnx & Hiff & Hfr & _).
      rewrite Hl1 in Hl. injection Hl as <-.
      split; [apply (train_ok_transfer w); auto|].
      apply List.Forall_forall. intros g Hin.
      rewrite List.Forall_forall in Hb. specialize (Hb g Hin).
      destruct (train_group_cases n g Hin) as (k & Hk & Hgr).
      unfold getAttribute_data_rot in *.
      rewrite Hfr; [exact Hb| |]; rewrite Hgr; cbn [In] in Hk;
        unfold minuteGroup, hourGroup; lia.
  - destruct IH as (n & Htr & Hb). exists n.
    pose proof Htr as (_ & Hn4 & _).
    split.
    { apply (train_ok_transfer w); auto.
      intros h. unfold click, update. cbn [dom elems].
      rewrite lookup_alter_is_Some. reflexivity. }
    apply List.Forall_forall. intros g Hin.
    rewrite List.Forall_forall in Hb. specialize (Hb g Hin).
    destruct (train_group_cases n g Hin) as (k & Hk & Hgr).
    unfold getAttribute_data_rot, click, update in *. cbn [dom elems].
    rewrite lookup_alter_ne
      by (rewrite Hgr; unfold toggleBtn; cbn [In] in Hk; lia).
    exact Hb.
  - destruct (reachable_ok w Hr) as [Hp _].
    eexists. split; [apply start_train_ok, Hp|apply Hstart].
Qed.

(** X15.  No gear is ever driven as far as the target of a full turn of the
    pinion: in every state the page reaches (frames reading valid times) a
    gear with [T] teeth stands at a rotation in [(-3600 / T, 0]], that is
    within 81.9, 163.7 and 257.2 degrees for the gears of 44, 22 and 14
    teeth. *)
Theorem rotation_within_turn (w : World R) (tr : Train R) (g : Gear R) :
  reachable w -> gearsObj (state w) = Some tr -> In g (gears tr) ->
  let cur := current_rotation (getAttribute_data_rot (group (shape g)) (dom w)) in
  - full_turn_target (teeth (shape g)) < cur <= 0 /\
  In (full_turn_target (teeth (shape g))) [900 / 11; 1800 / 11; 1800 / 7].
Proof.
  intros Hreach Htr Hin. cbv zeta.
  destruct (reachable_within_turn w Hreach) as (n & Hn & Hb).
  pose proof Hn as (Hg & _). rewrite Hg in Htr. apply (inj Some) in Htr.
  subst tr. rewrite List.Forall_forall in Hb. split; [exact (Hb g Hin)|].
  revert Hin. cbn [gears train_at In].
  intros [<-|[<-|[<-|[]]]]; cbn [shape shape_at teeth]; unfold full_turn_target;
    match goal with
    | |- context [Z.of_nat ?k] =>
        let z := eval vm_compute in (Z.of_nat k) in change (Z.of_nat k) with z
    end;
    [left|right; left|right; right; left]; lra.
Qed.

(** X16.  No frame turns a gear by much.  From any state the page reaches, a
    frame that reads a valid time changes the rotation of a gear with [T]
    teeth by less than [0.14 * 3600 / T] degrees (11.5, 23 and 36.1 degrees
    for 44, 22 and 14 teeth), also when the minute hand wraps around from
    the end of the hour to its start, and not at all while paused. *)
Theorem frame_step_bounded (w w' : World R) (now : Date) (tr : Train R)
    (g : Gear R) :
  reachable w -> valid_date now ->
  gearsObj (state w) = Some tr -> In g (gears tr) ->
  loop now w = Scheduled w' ->
  let cur := current_rotation (getAttribute_data_rot (group (shape g)) (dom w)) in
  let cur' := current_rotation (getAttribute_data_rot (group (shape g)) (dom w')) in
  Rabs (cur' - cur) < 0.14 * full_turn_target (teeth (shape g)) /\
  (running w = false -> cur' = cur).
Proof.
  intros Hreach Hv Htr Hin Hl. cbv zeta.
  destruct (reachable_within_turn w Hreach) as (n & Hn & Hb).
  pose proof Hn as (Hg & Hn4 & _). rewrite Hg in Htr. apply (inj Some) in Htr.
  subst tr. rewrite List.Forall_forall in Hb. specialize (Hb g Hin).
  pose proof (train_teeth_positive n g Hin) as HT.
  destruct (running w) eqn:Hrun.
  - destruct (loop_running_stored now w n Hrun Hn)
      as (w1 & Hl1 & _ & _ & Hgears).
    rewrite Hl1 in Hl. injection Hl as <-.
    rewrite List.Forall_forall in Hgears.
    rewrite (Hgears g Hin), (current_rotation_real (Some _)), next_rotation_real.
    pose proof (full_turn_target_range _ _ HT (minuteAngle_range now Hv)) as Ht.
    split; [|discriminate]. apply Rabs_def1; lra.
  - destruct (loop_paused now w Hrun) as (w1 & Hl1 & _ & _ & _ & _ & Hfr & _).
    rewrite Hl1 in Hl. injection Hl as <-.
    destruct (train_group_cases n g Hin) as (k & Hk & Hgr).
    unfold getAttribute_data_rot in *.
    rewrite Hfr
      by (rewrite Hgr; cbn [In] in Hk; unfold minuteGroup, hourGroup; lia).
    split; [|reflexivity].
    replace (_ - _) with 0 by lra. rewrite Rabs_R0. lra.
Qed.






End SmoothingFacts.

(** ** The pointer tilt *)

Section TiltFacts.

Context {num : Type} `{!JsNum num} `{!JsMin num}.

Lemma pointer_step_found (p : TiltPage num) (e : pointer_event num) :
  case_found (pointer_step p e) = case_found p /\
  svg_found (pointer_step p e) = svg_found p.
Proof.
  destruct p as [c s [dr y r] t], e as [y'| |y']; destruct c, s, dr; split;
    reflexivity.
Qed.

Lemma pointer_step_tilt (p : TiltPage num) (e : pointer_event num) :
  tilt_of_rot p -> (svg_found p = false -> svg_transform p = None) ->
  tilt_of_rot (pointer_step p e) /\
  (svg_found p = false -> svg_transform (pointer_step p e) = None).
Proof.
  unfold tilt_of_rot.
  destruct p as [c s [dr y r] t], e as [y'| |y']; destruct c, s, dr;
    cbn; intros Ht Hs; split;
    first [exact Ht | exact Hs | right; reflexivity
          | left; apply Hs; reflexivity | intros; discriminate ].
Qed.

Lemma pointer_run_snoc (es : list (pointer_event num)) (e : pointer_event num)
    (p : TiltPage num) :
  pointer_run (es ++ [e]) p = pointer_step (pointer_run es p) e.
Proof. unfold pointer_run. rewrite fold_left_app. reflexivity. Qed.

Lemma pointer_run_tilt (es : list (pointer_event num)) (c s : bool) :
  let p := pointer_run es (addDrag c s) in
  case_found p = c /\ svg_found p = s /\ tilt_of_rot p /\
  (s = false -> svg_transform p = None).
Proof.
  cbv zeta. induction es as [|e es IH] using rev_ind.
  - repeat split; auto. left. reflexivity.
  - destruct IH as (Hc & Hs & Ht & Hn). rewrite pointer_run_snoc.
    destruct (pointer_step_found (pointer_run es (addDrag c s)) e) as [Hc' Hs'].
    destruct (pointer_step_tilt (pointer_run es (addDrag c s)) e Ht) as [Ht' Hn'].
    { rewrite Hs. exact Hn. }
    rewrite Hs in Hn'. repeat split; congruence || auto.
Qed.

Lemma moves_not_dragging (ys : list num) (p : TiltPage num) :
  dragging (drag p) = false ->
  pointer_run (map PointerMove ys) p = p.
Proof.
  intros Hd. induction ys as [|y ys IH]; [reflexivity|].
  unfold pointer_run in *. cbn [map fold_left pointer_step].
  unfold pointermove at 1. rewrite Hd. cbn [negb fst].
  destruct (negb (case_found p)); exact IH.
Qed.

(** X18.  The tilt is inert outside a drag.  When the page has no control
    [#case] no listener is installed and no sequence of pointer events
    changes anything.  After the pointer is released, moves of the pointer
    change neither [rot] nor the tilt of the root, however many follow. *)
Theorem drag_inert (es : list (pointer_event num)) (ys : list num)
    (svg_there : bool) (p : TiltPage num) :
  pointer_run es (addDrag false svg_there) = addDrag false svg_there /\
  pointer_run (PointerUp :: map PointerMove ys) p = pointerup p.
Proof.
  split.
  - induction es as [|e es IH] using rev_ind; [reflexivity|].
    rewrite pointer_run_snoc, IH. destruct e; reflexivity.
  - change (pointer_run (PointerUp :: map PointerMove ys) p)
      with (pointer_run (map PointerMove ys) (pointerup p)).
    destruct (case_found p) eqn:Hc.
    + apply moves_not_dragging. unfold pointerup. rewrite Hc. reflexivity.
    + unfold pointerup. rewrite Hc.
      induction ys as [|y ys IH]; [reflexivity|].
      unfold pointer_run in *. cbn [map fold_left pointer_step].
      unfold pointermove at 1. rewrite Hc. exact IH.
Qed.

(** X19.  The tilt on screen is a function of [rot]: whatever events
    arrive after [addDrag], the root either has had no tilt written or
    shows [rotateX(clamp(rot / 6)) rotateY(clamp(rot / 4))] for the current
    value of [rot], with [clamp] cutting to [[-12, 12]].  Without a root
    element no tilt is ever written (the listener throws instead). *)
Theorem tilt_follows_rot (es : list (pointer_event num))
    (control_there svg_there : bool) :
  let p := pointer_run es (addDrag control_there svg_there) in
  (svg_transform p = None \/
   svg_transform p =
     Some (Math_max (- ofZ 12)%js (Math_min (ofZ 12) (rot (drag p) / ofZ 6)%js),
           Math_max (- ofZ 12)%js (Math_min (ofZ 12) (rot (drag p) / ofZ 4)%js))) /\
  (svg_there = false -> svg_transform p = None).
Proof.
  cbv zeta.
  destruct (pointer_run_tilt es control_there svg_there) as (_ & _ & Ht & Hn).
  split; [exact Ht|exact Hn].
Qed.

End TiltFacts.

Section TiltExact.

Local Open Scope R_scope.

Lemma clamp12_real (v : R) :
  -12 <= clamp12 v <= 12 /\ (Rabs v <= 12 -> clamp12 v = v) /\
  (12 <= v -> clamp12 v = 12) /\ (v <= -12 -> clamp12 v = -12).
Proof.
  unfold clamp12. cbn [Math_max Math_min real_num real_has_min ofZ neg].
  unfold Rmax, Rmin.
  repeat split; try intros Hv; try apply Rabs_le_bounds in Hv;
    destruct (Rle_dec 12 v); destruct (Rle_dec _ _); lra.
Qed.

Lemma last_default {A : Type} (y d d' : A) (ys : list A) :
  List.last (y :: ys) d = List.last (y :: ys) d'.
Proof.
  revert y. induction ys as [|y2 ys IH]; intros y; [reflexivity|].
  exact (IH y2).
Qed.

Lemma last_cons {A : Type} (y d : A) (ys : list A) :
  List.last (y :: ys) d = List.last ys y.
Proof.
  destruct ys as [|y2 ys]; [reflexivity|]. exact (last_default y2 d y ys).
Qed.

Lemma moves_dragging (ys : list R) (p : TiltPage R) :
  case_found p = true -> dragging (drag p) = true ->
  let q := pointer_run (map PointerMove ys) p in
  rot (drag q) = rot (drag p) + 0.15 * (List.last ys (startY (drag p)) - startY (drag p)) /\
  startY (drag q) = List.last ys (startY (drag p)) /\
  dragging (drag q) = true.
Proof.
  cbv zeta. revert p. induction ys as [|y ys IH]; intros p Hc Hd.
  - cbn. repeat split; [lra|exact Hd].
  - change (pointer_run (map PointerMove (y :: ys)) p)
      with (pointer_run (map PointerMove ys) (fst (pointermove y p))).
    assert (case_found (fst (pointermove y p)) = true /\
            dragging (drag (fst (pointermove y p))) = true /\
            startY (drag (fst (pointermove y p))) = y /\
            rot (drag (fst (pointermove y p))) =
              rot (drag p) + 0.15 * (y - startY (drag p))) as (Hc' & Hd' & Hy' & Hr').
    { unfold pointermove. rewrite Hc, Hd. cbn [negb].
      destruct (svg_found p); cbn [fst case_found drag dragging startY rot set_drag];
        rewrite ?decimal_real; change (10 ^ Z.of_nat 2)%Z with 100%Z;
        cbn [add sub mul real_num]; repeat split; auto; lra. }
    destruct (IH _ Hc' Hd') as (Hr & Hy & Hdq).
    rewrite Hr, Hy, Hr', Hy', last_cons. repeat split; [lra|exact Hdq].
Qed.

(** X20.  In exact arithmetic one drag adds [0.15] times its net vertical
    displacement to [rot]: after the pointer goes down at [y0] on the
    control and moves through any positions, [rot] has grown by
    [0.15 * (y_last - y0)], whatever path the pointer took and whether or
    not the root element exists. *)
Theorem drag_net_displacement (y0 : R) (ys : list R) (p : TiltPage R) :
  case_found p = true ->
  rot (drag (pointer_run (PointerDown y0 :: map PointerMove ys) p)) =
  rot (drag p) + 0.15 * (List.last ys y0 - y0).
Proof.
  intros Hc.
  change (pointer_run (PointerDown y0 :: map PointerMove ys) p)
    with (pointer_run (map PointerMove ys) (pointerdown y0 p)).
  assert (case_found (pointerdown y0 p) = true /\
          dragging (drag (pointerdown y0 p)) = true /\
          startY (drag (pointerdown y0 p)) = y0 /\
          rot (drag (pointerdown y0 p)) = rot (drag p)) as (Hc' & Hd' & Hy' & Hr').
  { unfold pointerdown. rewrite Hc. cbn. auto. }
  destruct (moves_dragging ys _ Hc' Hd') as (Hr & _).
  rewrite Hr, Hy', Hr'. reflexivity.
Qed.

(** X21.  The tilt is subtle by construction: in exact arithmetic every
    tilt written to the root has both angles within [[-12, 12]] degrees.
    While [|rot| <= 48] the angles are [rot / 6] and [rot / 4] unclamped,
    and from [|rot| >= 72] on both stand at the limit. *)
Theorem tilt_bounded (es : list (pointer_event R)) (control_there svg_there : bool)
    (a b : R) :
  let p := pointer_run es (addDrag control_there svg_there) in
  svg_transform p = Some (a, b) ->
  -12 <= a <= 12 /\ -12 <= b <= 12 /\
  (Rabs (rot (drag p)) <= 48 -> a = rot (drag p) / 6 /\ b = rot (drag p) / 4) /\
  (72 <= rot (drag p) -> a = 12 /\ b = 12) /\
  (rot (drag p) <= -72 -> a = -12 /\ b = -12).
Proof.
  cbv zeta. intros Hab.
  destruct (pointer_run_tilt es control_there svg_there) as (_ & _ & Ht & _).
  destruct Ht as [Ht|Ht]; rewrite Ht in Hab; [discriminate|].
  injection Hab as <- <-.
  set (r := rot (drag (pointer_run es (addDrag control_there svg_there)))).
  cbn [div ofZ real_num].
  destruct (clamp12_real (r / 6)) as (A1 & A2 & A3 & A4).
  destruct (clamp12_real (r / 4)) as (B1 & B2 & B3 & B4).
  split; [exact A1|]. split; [exact B1|]. split; [|split].
  - intros Hr. apply Rabs_le_bounds in Hr.
    split; [apply A2|apply B2]; apply Rabs_le; lra.
  - intros Hr. split; [apply A3|apply B3]; lra.
  - intros Hr. split; [apply A4|apply B4]; lra.
Qed.

End TiltExact.

(** The tilt at binary64. *)

Section Binary64Tilt.

(** A drag at binary64: down at 0, a move to 500 saturates both angles, a
    move back to 100 leaves [rot = 15] and the tilt [(2.5, 3.75)]. *)
Example float_tilt :
  svg_transform
    (pointer_run [PointerDown 0%float; PointerMove 500%float]
       (addDrag true true)) = Some (12%float, 12%float) /\
  svg_transform
    (pointer_run [PointerDown 0%float; PointerMove 500%float;
                  PointerMove 100%float; PointerUp; PointerMove 900%float]
       (addDrag true true)) = Some (2.5%float, 3.75%float).
Proof. split; vm_compute; reflexivity. Qed.

End Binary64Tilt.

(** ** The theorems at the page as loaded *)

Section Loaded.

Local Open Scope R_scope.

Lemma built_train : gearsObj (state built) = Some (train_at 4).
Proof.
  unfold built, start. cbn [state gearsObj].
  rewrite (buildGears_train (dom initial)). reflexivity.
Qed.

Lemma gear_one_in_train : In gear_one (gears (train_at 4)).
Proof. left. reflexivity. Qed.

Lemma quarter_past_valid : valid_date quarter_past.
Proof. unfold valid_date, quarter_past. cbn. lia. Qed.

Lemma quarter_past_turn : minuteAngle (getClockAngles (num := R) quarter_past) <> 0.
Proof.
  cbn [getClockAngles minuteAngle quarter_past getMinutes getSeconds
       getMilliseconds ofZ add mul div real_num].
  lra.
Qed.

Lemma gear_one_unrotated :
  getAttribute_data_rot (group (shape gear_one)) (dom built) = None.
Proof. apply (start_unrotated 0 initial 2). cbn. tauto. Qed.

Lemma makeGearPath_vertices_witness :
  (3 <= 10)%nat /\ 0 < 8 /\ 0 <= 4 /\ 8 + 4 < 1000000000000000000000 /\
  length (gear_vertices (num := R) 10 8 4) = (4 * 10)%nat /\
  length (gear_d (num := R) 10 8 4) = (4 * 10)%nat.
Proof.
  split; [lia|]. split; [lra|]. split; [lra|]. split; [lra|].
  destruct (makeGearPath_vertices 10 8 4 5 initial_dom
              ltac:(lia) ltac:(lra) ltac:(lra) ltac:(lra))
    as (H1 & _ & _ & _ & _ & H2 & _).
  split; assumption.
Defined.


Lemma loop_running_rotations_witness :
  reachable built /\ running built = true /\
  exists w', loop quarter_past built = Scheduled w'.
Proof.
  split; [apply reach_start|]. split; [reflexivity|].
  destruct (loop_running_rotations built quarter_past (reach_start 0) eq_refl)
    as (w' & _ & H & _).
  exists w'. exact H.
Defined.

Lemma paused_frames_freeze_witness :
  reachable paused /\ running paused = false /\
  exists w', frames ([] ++ [quarter_past]) paused = Scheduled w' /\
             running w' = false.
Proof.
  split; [apply reach_click, reach_start|]. split; [reflexivity|].
  destruct (paused_frames_freeze paused [] quarter_past
              (reach_click built (reach_start 0)) eq_refl)
    as (w' & _ & H1 & H2 & _).
  exists w'. split; assumption.
Defined.

Lemma buildGears_rebuild_witness :
  reachable built /\
  exists old new,
    gearsObj (state built) = Some old /\ fst (buildGears (dom built)) = new /\
    map placement (gears new) = map placement (gears old).
Proof.
  split; [apply reach_start|].
  destruct (buildGears_rebuild built (reach_start 0))
    as (old & new & H1 & H2 & H3 & _).
  exists old, new. repeat split; assumption.
Defined.

Lemma first_frame_rotation_witness :
  reachable built /\ running built = true /\
  gearsObj (state built) = Some (train_at 4) /\
  In gear_one (gears (train_at 4)) /\
  getAttribute_data_rot (group (shape gear_one)) (dom built) = None /\
  exists w', loop quarter_past built = Scheduled w'.
Proof.
  split; [apply reach_start|]. split; [reflexivity|].
  split; [exact built_train|]. split; [exact gear_one_in_train|].
  split; [exact gear_one_unrotated|].
  destruct (first_frame_rotation built quarter_past (train_at 4) gear_one
              (reach_start 0) eq_refl built_train gear_one_in_train
              (or_introl gear_one_unrotated))
    as [(w' & H & _) _].
  exists w'. exact H.
Defined.

Lemma tooth_counts_nonzero_witness :
  reachable built /\
  exists tr, gearsObj (state built) = Some tr /\
             map (fun g => teeth (shape g)) (gears tr) = [44; 22; 14]%nat.
Proof.
  split; [apply reach_start|].
  destruct (tooth_counts_nonzero built (reach_start 0))
    as [(tr & H1 & H2 & _) _].
  exists tr. split; assumption.
Defined.

Lemma smoothing_converges_witness :
  reachable built /\ running built = true /\ valid_date quarter_past /\
  Rabs (current_rotation
          (stored_rotation gear_one (frames (repeat quarter_past 68) built)) -
        mesh_target (minuteAngle (getClockAngles quarter_past)) 44)
  < 1 / 100.
Proof.
  split; [apply reach_start|]. split; [reflexivity|].
  split; [exact quarter_past_valid|].
  exact (proj2 (proj2 (proj2 (proj2 (proj2
           (smoothing_converges built quarter_past (train_at 4) gear_one 0
              (reach_start 0) eq_refl quarter_past_valid built_train
              gear_one_in_train)))))).
Defined.

Lemma gears_turn_against_pinion_witness :
  reachable built /\ running built = true /\ valid_date quarter_past /\
  exists w', loop quarter_past built = Scheduled w'.
Proof.
  split; [apply reach_start|]. split; [reflexivity|].
  split; [exact quarter_past_valid|].
  destruct (gears_turn_against_pinion built quarter_past (reach_start 0)
              eq_refl quarter_past_valid quarter_past_turn)
    as (w' & _ & _ & H & _).
  exists w'. exact H.
Defined.

End Loaded.

(** ** The further theorems at the page as loaded *)

Section LoadedMore.

Local Open Scope R_scope.

Lemma row_g3_in_config : In row_g3 config.
Proof. right. right. left. reflexivity. Qed.

Lemma gear_path_polyline_witness :
  (1 <= 3)%nat /\
  gear_pathD (gear_d (num := R) 3 1 1) =
  ("M " ++ String.concat " L " (gear_d (num := R) 3 1 1) ++ " Z")%string.
Proof.
  split; [lia|]. apply (gear_path_polyline 3 1 1). lia.
Defined.

Lemma frames_never_throw_witness :
  reachable built /\
  exists w', frames ([] ++ [quarter_past]) built = Scheduled w' /\
             running w' = running built.
Proof.
  split; [apply reach_start|].
  destruct (frames_never_throw built [] quarter_past (reach_start 0))
    as [(w' & H1 & H2 & _) _].
  exists w'. split; assumption.
Defined.

Lemma displayed_is_stored_witness :
  reachable built /\
  exists tr, gearsObj (state built) = Some tr /\ shows_stored (dom built) tr.
Proof.
  split; [apply reach_start|].
  exact (displayed_is_stored built (reach_start 0)).
Defined.

Lemma gear_outline_symmetric_witness :
  (0 + 4 < 3 * 4)%nat /\
  gear_vertices 3 1 1 !! (0 + 4)%nat =
  turned (2 * PI / INR 3) <$> gear_vertices 3 1 1 !! 0%nat.
Proof.
  split; [lia|]. apply (gear_outline_symmetric 3 1 1 0). lia.
Defined.


Lemma clock_angles_range_witness :
  valid_date quarter_past /\
  0 <= minuteAngle (getClockAngles quarter_past) < 360.
Proof.
  split; [exact quarter_past_valid|].
  exact (proj1 (proj2 (clock_angles_range quarter_past quarter_past_valid))).
Defined.

Lemma hands_coupled_witness :
  valid_date quarter_past /\
  minuteAngle (getClockAngles quarter_past) =
  6 * IZR (getMinutes quarter_past) +
  secondAngle (getClockAngles quarter_past) / 60.
Proof.
  split; [exact quarter_past_valid|].
  exact (proj1 (hands_coupled quarter_past quarter_past_valid)).
Defined.

Lemma clock_twelve_hours_witness :
  (0 <= getHours quarter_past)%Z /\
  getClockAngles
    {| getHours := getHours quarter_past + 12;
       getMinutes := getMinutes quarter_past;
       getSeconds := getSeconds quarter_past;
       getMilliseconds := getMilliseconds quarter_past |} =
  getClockAngles (num := float) quarter_past.
Proof.
  split; [cbn; lia|]. apply (clock_twelve_hours quarter_past). cbn. lia.
Defined.

Lemma rotation_within_turn_witness :
  reachable built /\ gearsObj (state built) = Some (train_at 4) /\
  In gear_one (gears (train_at 4)) /\
  - full_turn_target (teeth (shape gear_one)) <
  current_rotation (getAttribute_data_rot (group (shape gear_one)) (dom built))
  <= 0.
Proof.
  split; [apply reach_start|]. split; [exact built_train|].
  split; [exact gear_one_in_train|].
  exact (proj1 (rotation_within_turn built (train_at 4) gear_one
                  (reach_start 0) built_train gear_one_in_train)).
Defined.

Lemma frame_step_bounded_witness :
  reachable built /\ valid_date quarter_past /\
  gearsObj (state built) = Some (train_at 4) /\
  In gear_one (gears (train_at 4)) /\
  exists w',
    loop quarter_past built = Scheduled w' /\
    Rabs (current_rotation
            (getAttribute_data_rot (group (shape gear_one)) (dom w')) -
          current_rotation
            (getAttribute_data_rot (group (shape gear_one)) (dom built)))
    < 0.14 * full_turn_target (teeth (shape gear_one)).
Proof.
  split; [apply reach_start|]. split; [exact quarter_past_valid|].
  split; [exact built_train|]. split; [exact gear_one_in_train|].
  destruct (frames_scheduled [quarter_past] built
              (reachable_ok built (reach_start 0))) as (w' & Hl & _).
  exists w'. split; [exact Hl|].
  exact (proj1 (frame_step_bounded built w' quarter_past (train_at 4) gear_one
                  (reach_start 0) quarter_past_valid built_train
                  gear_one_in_train Hl)).
Defined.


Lemma drag_net_displacement_witness :
  case_found (addDrag (num := R) true true) = true /\
  rot (drag (pointer_run short_drag (addDrag true true))) =
  rot (drag (addDrag true true)) + 0.15 * (List.last [10; 30] 0 - 0).
Proof.
  split; [reflexivity|].
  apply (drag_net_displacement 0 [10; 30] (addDrag true true)). reflexivity.
Defined.

Lemma tilt_bounded_witness :
  exists a b,
    svg_transform (pointer_run short_drag (addDrag true true)) = Some (a, b) /\
    -12 <= a <= 12 /\ -12 <= b <= 12.
Proof.
  eexists. eexists. split; [reflexivity|].
  destruct (tilt_bounded short_drag true true _ _ eq_refl) as (Ha & Hb & _).
  split; [exact Ha|exact Hb].
Defined.

End LoadedMore.
